(** * Bookstore backend: book catalogue reader and in-memory cart store

    A shallow embedding of [src/app/services/bookService.ts] and
    [src/app/api/cart/route.ts], followed by the properties of the
    specification that concern them.

    Modelling conventions.
    - A JavaScript [number] is an IEEE 754 binary64 value, modelled by the
      primitive floats of the prover with their specification in terms of
      [spec_float]; [+], [*], [>=] and [===] on numbers are the operations
      on doubles, with their rounding, infinities and NaN.
    - The module-level object [carts] is a plain object: a finite map of own
      properties, over the properties it inherits from [Object.prototype].
      For a user identifier that names an inherited property and has no own
      property, [carts[userId]] is a function or an object that is not an
      array, and calling an array method on it throws a [TypeError].
    - The validation library is imported, not part of the repository, and its
      major versions differ on numbers: version 3 accepts every number that
      is not NaN and takes [int] as [Number.isInteger]; version 4 accepts
      finite numbers only and takes [int] as [Number.isSafeInteger].  The
      version is a parameter of the model and every property is proved for
      both.
    - The body of a handler is a computation that threads the store and may
      throw; the handler itself maps the request and the store to the
      response and the store it leaves behind.  A handler runs without
      interruption once the request body has been read, so a request is one
      step. *)

From Stdlib Require Import QArith Floats.
From stdpp Require Import gmap strings list fin_maps.

Close Scope Q_scope.

(** ** JavaScript numbers *)

Definition number : Type := float.
Bind Scope float_scope with number.

(** [a >= b] on numbers. *)
Definition num_ge (a b : number) : bool := (b <=? a)%float.

(** [a === b] on numbers. *)
Definition num_eq (a b : number) : bool := (a =? b)%float.

(** [Number.isInteger]: the number is finite and has no fractional part. *)
Definition isIntegerSF (x : spec_float) : bool :=
  match x with
  | S754_zero _ => true
  | S754_finite _ m e => (0 <=? e)%Z || (Zpos m mod 2 ^ (- e) =? 0)%Z
  | _ => false
  end.
Definition isInteger (x : number) : bool := isIntegerSF (Prim2SF x).

(** [Number.MAX_SAFE_INTEGER] and [Number.isSafeInteger]. *)
Definition MAX_SAFE_INTEGER : number := 9007199254740991.
Definition isSafeInteger (x : number) : bool :=
  isInteger x && (abs x <=? MAX_SAFE_INTEGER)%float.

(** The rational a finite double stands for; [None] for the infinities and
    NaN. *)
Definition SF2Q (x : spec_float) : option Q :=
  match x with
  | S754_zero _ => Some 0%Q
  | S754_finite s m e =>
    let n := cond_Zopp s (Zpos m) in
    Some (if (0 <=? e)%Z then inject_Z (n * 2 ^ e)
          else Qmake n (Z.to_pos (2 ^ (- e))))
  | _ => None
  end.
Definition valueOf (x : number) : option Q := SF2Q (Prim2SF x).

(** The doubles 1 and [Number.MAX_SAFE_INTEGER], taken apart. *)
Definition SFone : spec_float := S754_finite false 4503599627370496 (-52).
Definition SFmaxSafe : spec_float := S754_finite false 9007199254740991 0.

(** ** Parsed JSON values, as [request.json()] yields them *)

#[local] Set Warnings "-register-all".

Inductive json : Type :=
| JNull
| JBool (b : bool)
| JNumber (x : number)
| JString (s : string)
| JArray (xs : list json)
| JObject (fields : list (string * json)).

(** Property access [v.k] on a parsed value; [None] is [undefined].  The
    list holds the own properties of the parsed object. *)
Fixpoint assoc (k : string) (fields : list (string * json)) : option json :=
  match fields with
  | [] => None
  | (k', v) :: rest => if String.eqb k k' then Some v else assoc k rest
  end.

Definition getField (v : json) (k : string) : option json :=
  match v with
  | JObject fields => assoc k fields
  | _ => None
  end.

(** ** The zod combinators used by the schemas

    Each returns [None] where zod's [parse] throws a [ZodError]. *)

Inductive ZodVersion : Type := Zod3 | Zod4.
Existing Class ZodVersion.

(** What [z.number()] accepts. *)
Definition z_number_accepts {zod : ZodVersion} (x : number) : bool :=
  match zod with
  | Zod3 => negb (is_nan x)
  | Zod4 => is_finite x
  end.

(** What [.int()] demands of a number. *)
Definition z_int_accepts {zod : ZodVersion} (x : number) : bool :=
  match zod with
  | Zod3 => isInteger x
  | Zod4 => isSafeInteger x
  end.

(** [z.string().min(n)] *)
Definition z_string_min (n : nat) (v : option json) : option string :=
  match v with
  | Some (JString s) => if (n <=? String.length s)%nat then Some s else None
  | _ => None
  end.

(** [z.number().min(k)] *)
Definition z_number_min {zod : ZodVersion} (k : number) (v : option json) :
    option number :=
  match v with
  | Some (JNumber x) =>
    if z_number_accepts x && num_ge x k then Some x else None
  | _ => None
  end.

(** [z.number().int().min(k)] *)
Definition z_number_int_min {zod : ZodVersion} (k : number) (v : option json) :
    option number :=
  match v with
  | Some (JNumber x) =>
    if z_number_accepts x && z_int_accepts x && num_ge x k then Some x else None
  | _ => None
  end.

(** * Book catalogue reader ([bookService.ts]) *)

Module Books.

(** [genre] is either one string or an array of strings. *)
Inductive Genre : Type :=
| GenreString (s : string)
| GenreArray (xs : list string).

Section Catalogue.
(** The remaining fields of a [Book], declared in [@/app/types/book];
    the spread [...book] copies them. *)
Variable Fields : Type.

Record Book : Type := mkBook { fields : Fields; genre : Genre }.

(** [Array.prototype.join] on an array of strings. *)
Fixpoint join (sep : string) (xs : list string) : string :=
  match xs with
  | [] => ""
  | [x] => x
  | x :: rest => x +:+ sep +:+ join sep rest
  end.

(** [Array.isArray(book.genre) ? book.genre.join(', ') : book.genre] *)
Definition normalizeGenre (g : Genre) : Genre :=
  match g with
  | GenreArray xs => GenreString (join ", " xs)
  | GenreString s => GenreString s
  end.

(** [getAllBooks], with the imported dataset [books] as its argument. *)
Definition getAllBooks (books : list Book) : list Book :=
  map (λ book, {| fields := fields book; genre := normalizeGenre (genre book) |}) books.
End Catalogue.

Arguments mkBook {Fields} _ _.
Arguments fields {Fields} _.
Arguments genre {Fields} _.
Arguments getAllBooks {Fields} _.

End Books.

(** * Cart store ([api/cart/route.ts]) *)

Module Cart.

Record CartItem : Type := mkItem {
  productId : string;
  quantity : number;
  price : number
}.

(** The own properties of the module-level [carts] object. *)
Abbreviation store := (gmap string (list CartItem)).

(** The names of the properties that [carts], created by the literal [{}],
    inherits from [Object.prototype]; each holds a function, or for
    [__proto__] the prototype object itself. *)
Definition objectPrototypeKeys : list string :=
  ["constructor"; "__defineGetter__"; "__defineSetter__"; "hasOwnProperty";
   "__lookupGetter__"; "__lookupSetter__"; "isPrototypeOf";
   "propertyIsEnumerable"; "toString"; "valueOf"; "__proto__";
   "toLocaleString"].

(** What [carts[userId]] evaluates to: the array stored under an own
    property, an inherited value that is truthy and not an array, or
    [undefined]. *)
Inductive Slot : Type :=
| OwnCart (cart : list CartItem)
| InheritedValue
| Undefined.

Definition slotOf (carts : store) (userId : string) : Slot :=
  match carts !! userId with
  | Some cart => OwnCart cart
  | None =>
    if bool_decide (userId ∈ objectPrototypeKeys) then InheritedValue
    else Undefined
  end.

(** ** Requests and responses *)

Record Request : Type := mkRequest {
  (** [searchParams.get('userId')] *)
  param_userId : option string;
  (** [searchParams.get('itemId')] *)
  param_itemId : option string;
  (** [await request.json()]; [None] when the body is not JSON and the
      call throws *)
  req_json : option json
}.

Record UpdateCartItem : Type := mkUpdate {
  upd_productId : string;
  upd_quantity : number
}.

Inductive Body : Type :=
| CartListing (items : list CartItem) (totalItems : nat) (totalPrice : number)
| ItemAdded (message : string) (item : CartItem)
| ItemUpdated (message : string) (item : UpdateCartItem)
| ItemRemoved (message : string) (itemId : string)
| ErrorBody (error : string).

Record Response : Type := mkResponse { status : nat; body : Body }.

(** [NextResponse.json(b)] and [NextResponse.json(b, { status })] *)
Definition ok (b : Body) : Response := mkResponse 200 b.
Definition failure (code : nat) (error : string) : Response :=
  mkResponse code (ErrorBody error).

(** [searchParams.get('userId') || 'default-user']: the empty string is
    falsy as well. *)
Definition userIdOf (req : Request) : string :=
  match param_userId req with
  | Some u => if String.eqb u "" then "default-user" else u
  | None => "default-user"
  end.

(** ** Array helpers *)

(** [Array.prototype.findIndex]; [None] stands for [-1].  [find] returns
    the element at that index. *)
Fixpoint findIndex {A} (pred : A → bool) (xs : list A) : option nat :=
  match xs with
  | [] => None
  | x :: rest => if pred x then Some 0 else S <$> findIndex pred rest
  end.

Definition hasProductId (p : string) (item : CartItem) : bool :=
  String.eqb (productId item) p.

(** [item.quantity += q] and [item.quantity = q] on the item object. *)
Definition addQuantity (q : number) (item : CartItem) : CartItem :=
  mkItem (productId item) (quantity item + q)%float (price item).
Definition setQuantity (q : number) (item : CartItem) : CartItem :=
  mkItem (productId item) q (price item).

(** [cartItems.reduce((sum, item) => sum + item.price * item.quantity, 0)] *)
Definition totalPriceOf (cartItems : list CartItem) : number :=
  fold_left (λ sum item, (sum + price item * quantity item)%float) cartItems 0%float.

(** ** Handler bodies

    The body of a handler reads and writes [carts] and may throw; the
    [catch] clause of the handler turns what was thrown into a response.
    A write that precedes a [throw] stays in the store. *)

Inductive Thrown : Type :=
| ZodError      (* thrown by [Schema.parse] *)
| SyntaxError   (* thrown by [request.json()] on a body that is not JSON *)
| TypeError.    (* thrown by a call of a method the value does not have *)

Definition Handler (A : Type) : Type := store → (Thrown + A) * store.

#[global] Instance handler_ret : MRet Handler := λ A a carts, (inr a, carts).
#[global] Instance handler_bind : MBind Handler := λ A B k m carts,
  match m carts with
  | (inr a, carts') => k a carts'
  | (inl e, carts') => (inl e, carts')
  end.

Definition throw {A} (e : Thrown) : Handler A := λ carts, (inl e, carts).

(** [carts[userId]] *)
Definition readCart (userId : string) : Handler Slot :=
  λ carts, (inr (slotOf carts userId), carts).

(** [carts[userId] = cart], and the in-place updates of the array
    [carts[userId]] ([push], [splice], assignment to a field of an item). *)
Definition writeCart (userId : string) (cart : list CartItem) : Handler unit :=
  λ carts, (inr tt, <[userId := cart]> carts).

(** The receiver of [.find], [.findIndex] and [.reduce]: the array, or a
    [TypeError] where the value has no such method. *)
Definition arrayOf (slot : Slot) : Handler (list CartItem) :=
  match slot with
  | OwnCart cart => mret cart
  | InheritedValue | Undefined => throw TypeError
  end.

(** [await request.json()] *)
Definition requestJson (req : Request) : Handler json :=
  match req_json req with
  | Some body => mret body
  | None => throw SyntaxError
  end.

(** [Schema.parse(input)] *)
Definition parse {A B} (schema : A → option B) (input : A) : Handler B :=
  match schema input with
  | Some validatedData => mret validatedData
  | None => throw ZodError
  end.

(** [try { body } catch (error) { return onError(error) }] *)
Definition tryCatch (body : Handler Response) (onError : Thrown → Response)
    (carts : store) : Response * store :=
  match body carts with
  | (inr response, carts') => (response, carts')
  | (inl error, carts') => (onError error, carts')
  end.

(** The [catch] clause of POST, PUT and DELETE. *)
Definition onError (message : string) (error : Thrown) : Response :=
  match error with
  | ZodError => failure 400 "Invalid input"
  | SyntaxError | TypeError => failure 500 message
  end.

(** [DeleteCartItemSchema.parse({ itemId: searchParams.get('itemId') })];
    an absent query parameter is [null]. *)
Definition DeleteCartItemSchema (itemId : option string) : option string :=
  z_string_min 1 (Some (from_option JString JNull itemId)).

Section Handlers.
Context {zod : ZodVersion}.

(** ** Validation schemas *)

Definition CartItemSchema (body : json) : option CartItem :=
  match z_string_min 1 (getField body "productId"),
        z_number_int_min 1 (getField body "quantity"),
        z_number_min 0 (getField body "price") with
  | Some p, Some q, Some pr => Some (mkItem p q pr)
  | _, _, _ => None
  end.

Definition UpdateCartItemSchema (body : json) : option UpdateCartItem :=
  match z_string_min 1 (getField body "productId"),
        z_number_int_min 0 (getField body "quantity") with
  | Some p, Some q => Some (mkUpdate p q)
  | _, _ => None
  end.

(** ** The four handlers *)

Definition GET (req : Request) : store → Response * store :=
  tryCatch
    (let userId := userIdOf req in
     slot ← readCart userId;
     (* carts[userId] || [] *)
     let cartItems := match slot with Undefined => OwnCart [] | _ => slot end in
     (* cartItems.reduce(...) *)
     items ← arrayOf cartItems;
     mret (ok (CartListing items (length items) (totalPriceOf items))))
    (λ _, failure 500 "Failed to fetch cart items").

Definition POST (req : Request) : store → Response * store :=
  tryCatch
    (let userId := userIdOf req in
     body ← requestJson req;
     validatedData ← parse CartItemSchema body;
     slot ← readCart userId;
     (* if (!carts[userId]) carts[userId] = [] *)
     match slot with Undefined => writeCart userId [] | _ => mret tt end;;
     slot ← readCart userId;
     (* carts[userId].find(...) *)
     cart ← arrayOf slot;
     match findIndex (hasProductId (productId validatedData)) cart with
     | Some i => writeCart userId (alter (addQuantity (quantity validatedData)) i cart)
     | None =>
       writeCart userId
         (cart ++ [mkItem (productId validatedData) (quantity validatedData)
                          (price validatedData)])
     end;;
     mret (ok (ItemAdded "Item added to cart successfully" validatedData)))
    (onError "Failed to add item to cart").

Definition PUT (req : Request) : store → Response * store :=
  tryCatch
    (let userId := userIdOf req in
     body ← requestJson req;
     validatedData ← parse UpdateCartItemSchema body;
     slot ← readCart userId;
     match slot with
     | Undefined => mret (failure 404 "Cart not found")
     | _ =>
       (* carts[userId].findIndex(...) *)
       cart ← arrayOf slot;
       match findIndex (hasProductId (upd_productId validatedData)) cart with
       | None => mret (failure 404 "Item not found in cart")
       | Some itemIndex =>
         (if num_eq (upd_quantity validatedData) 0
          then writeCart userId (delete itemIndex cart)
          else writeCart userId
                 (alter (setQuantity (upd_quantity validatedData)) itemIndex cart));;
         mret (ok (ItemUpdated "Cart item updated successfully" validatedData))
       end
     end)
    (onError "Failed to update cart item").

Definition DELETE (req : Request) : store → Response * store :=
  tryCatch
    (let userId := userIdOf req in
     validatedData ← parse DeleteCartItemSchema (param_itemId req);
     slot ← readCart userId;
     match slot with
     | Undefined => mret (failure 404 "Cart not found")
     | _ =>
       (* carts[userId].findIndex(...) *)
       cart ← arrayOf slot;
       match findIndex (hasProductId validatedData) cart with
       | None => mret (failure 404 "Item not found in cart")
       | Some itemIndex =>
         writeCart userId (delete itemIndex cart);;
         mret (ok (ItemRemoved "Item removed from cart successfully" validatedData))
       end
     end)
    (onError "Failed to remove item from cart").

(** ** The service as a transition system *)

Inductive Method : Type := mGET | mPOST | mPUT | mDELETE.

Definition handle (m : Method) : Request → store → Response * store :=
  match m with
  | mGET => GET
  | mPOST => POST
  | mPUT => PUT
  | mDELETE => DELETE
  end.

(** The store after a sequence of requests, served one after the other. *)
Definition run (reqs : list (Method * Request)) (carts : store) : store :=
  fold_left (λ s mr, (handle mr.1 mr.2 s).2) reqs carts.

End Handlers.

(** ** Notions used to state the properties *)

(** At most one line item per product in a cart, and in every cart. *)
Definition cart_unique (cart : list CartItem) : Prop :=
  NoDup (productId <$> cart).
Definition store_unique (carts : store) : Prop :=
  ∀ u cart, carts !! u = Some cart → cart_unique cart.

(** The line items of a cart for a product. *)
Definition itemsOf (p : string) (cart : list CartItem) : list CartItem :=
  filter (λ item, productId item = p) cart.

(** The user identifier names a property that [carts] inherits and does
    not hold itself. *)
Definition namesInherited (carts : store) (u : string) : Prop :=
  carts !! u = None ∧ u ∈ objectPrototypeKeys.

(** The sum over the line items, in their order, of price times quantity,
    each product and each partial sum being a double. *)
Inductive sumInOrder : list CartItem → number → Prop :=
| sum_none : sumInOrder [] 0%float
| sum_next (cart : list CartItem) (item : CartItem) (total : number) :
    sumInOrder cart total →
    sumInOrder (cart ++ [item]) (total + price item * quantity item)%float.

(** The field constraints of the add and update operations, as the
    specification words them: a non-empty string, an integer of at least
    [k], a number of at least [k] (which positive infinity is). *)
Definition isNonEmptyString (v : option json) : Prop :=
  ∃ s, v = Some (JString s) ∧ s ≠ "".
Definition isIntegerAtLeast (k : Z) (v : option json) : Prop :=
  ∃ n : Z, (k ≤ n)%Z ∧
    ∃ x q, v = Some (JNumber x) ∧ valueOf x = Some q ∧ (q == inject_Z n)%Q.
Definition isNumberAtLeast (k : Z) (v : option json) : Prop :=
  ∃ x, v = Some (JNumber x) ∧
    (x = infinity ∨ ∃ q, valueOf x = Some q ∧ (inject_Z k <= q)%Q).

(** The same with the bounds of version 4 of the validation library: a
    safe integer, a finite number. *)
Definition isSafeIntegerAtLeast (k : Z) (v : option json) : Prop :=
  ∃ n : Z, (k ≤ n ≤ 9007199254740991)%Z ∧
    ∃ x q, v = Some (JNumber x) ∧ valueOf x = Some q ∧ (q == inject_Z n)%Q.
Definition isFiniteNumberAtLeast (k : Z) (v : option json) : Prop :=
  ∃ x q, v = Some (JNumber x) ∧ valueOf x = Some q ∧ (inject_Z k <= q)%Q.

(** The constraints as the validation library in use enforces them. *)
Definition acceptedInteger {zod : ZodVersion} (k : Z) (v : option json) : Prop :=
  match zod with
  | Zod3 => isIntegerAtLeast k v
  | Zod4 => isSafeIntegerAtLeast k v
  end.
Definition acceptedNumber {zod : ZodVersion} (k : Z) (v : option json) : Prop :=
  match zod with
  | Zod3 => isNumberAtLeast k v
  | Zod4 => isFiniteNumberAtLeast k v
  end.

(** A line item as it is stored: the product identifier is not empty and
    the price is at least 0. *)
Definition item_valid (item : CartItem) : Prop :=
  productId item ≠ "" ∧ num_ge (price item) 0 = true.
Definition store_valid (carts : store) : Prop :=
  ∀ u cart, carts !! u = Some cart → Forall item_valid cart.

(** The product and the price of each line item, in the order of the cart. *)
Definition priced (cart : list CartItem) : list (string * number) :=
  (λ item, (productId item, price item)) <$> cart.

(** The edits a handler makes to a cart: the quantity of one line item is
    set, one line item is removed, or a line item for a product the cart
    does not hold is put at its end. *)
Inductive cart_edit : list CartItem → list CartItem → Prop :=
| edit_quantity (l1 l2 : list CartItem) (old : CartItem) (q : number) :
    cart_edit (l1 ++ old :: l2) (l1 ++ setQuantity q old :: l2)
| edit_remove (l1 l2 : list CartItem) (old : CartItem) :
    cart_edit (l1 ++ old :: l2) (l1 ++ l2)
| edit_append (cart : list CartItem) (new : CartItem) :
    productId new ∉ productId <$> cart →
    cart_edit cart (cart ++ [new]).

(** The requests of a sequence that are not listings. *)
Definition isMutation (mr : Method * Request) : bool :=
  match mr.1 with
  | mGET => false
  | _ => true
  end.
Definition mutations (reqs : list (Method * Request)) : list (Method * Request) :=
  List.filter isMutation reqs.

(** Request builders for the scenarios below. *)
Definition addBody (p : string) (q pr : number) : json :=
  JObject [("productId", JString p); ("quantity", JNumber q); ("price", JNumber pr)].
Definition updateBody (p : string) (q : number) : json :=
  JObject [("productId", JString p); ("quantity", JNumber q)].
Definition addRequest (u : option string) (p : string) (q pr : number) : Request :=
  mkRequest u None (Some (addBody p q pr)).
Definition updateRequest (u : option string) (p : string) (q : number) : Request :=
  mkRequest u None (Some (updateBody p q)).
Definition removeRequest (u : option string) (itemId : string) : Request :=
  mkRequest u (Some itemId) None.
Definition listRequest (u : option string) : Request :=
  mkRequest u None None.

(** The request with its [userId] query parameter replaced. *)
Definition withUserId (u : option string) (req : Request) : Request :=
  mkRequest u (param_itemId req) (req_json req).

(** The version of the validation library the scenarios are run with, and
    stores of the scenarios, reached from the empty store. *)
Definition scenarioZod : ZodVersion := Zod4.
Definition oneItemStore : store :=
  run (zod := scenarioZod) [(mPOST, addRequest (Some "u") "b1" 5 7)] ∅.
Definition twoItemStore : store :=
  run (zod := scenarioZod)
      [(mPOST, addRequest (Some "u") "b1" 2 10);
       (mPOST, addRequest (Some "u") "b2" 1 5)] ∅.

(** The double nearest to one tenth. *)
Definition oneTenth : number := 0x1.999999999999ap-4.

End Cart.

Import Books Cart.

(** * Properties *)

(** ** Doubles and the rationals they stand for *)

Lemma digits2_pos_bounds (m : positive) :
  (2 ^ (Zpos (digits2_pos m) - 1) ≤ Zpos m < 2 ^ Zpos (digits2_pos m))%Z.
Proof.
  induction m as [m IH|m IH|]; simpl digits2_pos.
  - rewrite Pos2Z.inj_succ.
    replace (Z.succ (Zpos (digits2_pos m)) - 1)%Z
      with (Z.succ (Zpos (digits2_pos m) - 1))%Z by lia.
    rewrite !Z.pow_succ_r by lia. lia.
  - rewrite Pos2Z.inj_succ.
    replace (Z.succ (Zpos (digits2_pos m)) - 1)%Z
      with (Z.succ (Zpos (digits2_pos m) - 1))%Z by lia.
    rewrite !Z.pow_succ_r by lia. lia.
  - simpl. lia.
Qed.

(** The mantissa and the exponent of a finite double. *)
Lemma valid_binary_bounds (s : bool) (m : positive) (e : Z) :
  valid_binary (S754_finite s m e) = true →
  (-1074 ≤ e ≤ 971)%Z ∧ (Zpos m < 2 ^ 53)%Z ∧
  ((-1074 < e)%Z → (2 ^ 52 ≤ Zpos m)%Z).
Proof.
  unfold SpecFloat.valid_binary, bounded, canonical_mantissa, fexp, emin, prec, emax.
  intros [Hc He]%andb_prop. apply Z.eqb_eq in Hc. apply Z.leb_le in He.
  pose proof (digits2_pos_bounds m) as [Hlo Hhi].
  assert (Hd : (Zpos (digits2_pos m) ≤ 53)%Z) by lia.
  split_and!; [lia..| | ].
  - eapply Z.lt_le_trans; [exact Hhi|]. apply Z.pow_le_mono_r; lia.
  - intros Hmin. assert (Zpos (digits2_pos m) = 53)%Z as Hd53 by lia.
    rewrite Hd53 in Hlo. exact Hlo.
Qed.

Lemma Qle_1_make (n : Z) (d : positive) : (1 <= Qmake n d)%Q ↔ (Zpos d ≤ n)%Z.
Proof. unfold Qle. simpl. lia. Qed.

Lemma Qle_1_inject (n : Z) : (1 <= inject_Z n)%Q ↔ (1 ≤ n)%Z.
Proof. unfold Qle. simpl. lia. Qed.

Lemma pos_pow2 (k : Z) : (0 ≤ k)%Z → Zpos (Z.to_pos (2 ^ k)) = (2 ^ k)%Z.
Proof. intros Hk. apply Z2Pos.id. by apply Z.pow_pos_nonneg. Qed.

Lemma SF2Q_finite_neg (s : bool) (m : positive) (e : Z) :
  (e < 0)%Z →
  SF2Q (S754_finite s m e)
    = Some (Qmake (cond_Zopp s (Zpos m)) (Z.to_pos (2 ^ (- e)))).
Proof. intros He. unfold SF2Q. by destruct (Z.leb_spec 0 e); [lia|]. Qed.

Lemma SF2Q_finite_nonneg (s : bool) (m : positive) (e : Z) :
  (0 ≤ e)%Z →
  SF2Q (S754_finite s m e) = Some (inject_Z (cond_Zopp s (Zpos m) * 2 ^ e)).
Proof. intros He. unfold SF2Q. by destruct (Z.leb_spec 0 e); [|lia]. Qed.

Lemma positive_ge_one (m : positive) (e : Z) (q : Q) :
  SF2Q (S754_finite false m e) = Some q →
  (1 <= q)%Q ↔ (0 ≤ e)%Z ∨ (e < 0 ∧ 2 ^ (- e) ≤ Zpos m)%Z.
Proof.
  destruct (Z.leb_spec 0 e) as [He|He].
  - rewrite SF2Q_finite_nonneg by done. intros [= <-]. rewrite Qle_1_inject.
    simpl cond_Zopp. split; [by left|]. intros _.
    assert (0 < 2 ^ e)%Z by (apply Z.pow_pos_nonneg; lia).
    assert (1 * 1 ≤ Z.pos m * 2 ^ e)%Z by (apply Z.mul_le_mono_nonneg; lia). lia.
  - rewrite SF2Q_finite_neg by done. intros [= <-]. rewrite Qle_1_make.
    simpl cond_Zopp. rewrite pos_pow2 by lia.
    split; [by right|]. intros [|[_ ?]]; [lia|done].
Qed.

Lemma positive_gt_zero (m : positive) (e : Z) (q : Q) :
  SF2Q (S754_finite false m e) = Some q → (0 < q)%Q.
Proof.
  destruct (Z.leb_spec 0 e) as [He|He].
  - rewrite SF2Q_finite_nonneg by done. intros [= <-]. unfold Qlt. simpl.
    assert (0 < 2 ^ e)%Z by (apply Z.pow_pos_nonneg; lia).
    assert (0 < Z.pos m * 2 ^ e)%Z by (apply Z.mul_pos_pos; lia). lia.
  - rewrite SF2Q_finite_neg by done. intros [= <-]. unfold Qlt. simpl. lia.
Qed.

Lemma negative_lt_zero (m : positive) (e : Z) (q : Q) :
  SF2Q (S754_finite true m e) = Some q → (q < 0)%Q.
Proof.
  destruct (Z.leb_spec 0 e) as [He|He].
  - rewrite SF2Q_finite_nonneg by done. intros [= <-]. unfold Qlt. simpl.
    assert (0 < 2 ^ e)%Z by (apply Z.pow_pos_nonneg; lia).
    assert (0 < Z.pos m * 2 ^ e)%Z by (apply Z.mul_pos_pos; lia). lia.
  - rewrite SF2Q_finite_neg by done. intros [= <-]. unfold Qlt. simpl. lia.
Qed.

Lemma SFleb_one_cmp (m : positive) (e : Z) :
  SFleb SFone (S754_finite false m e) = true ↔
    (-52 < e)%Z ∨ (e = -52 ∧ 4503599627370496 ≤ Zpos m)%Z.
Proof.
  unfold SFleb, SFone, SFcompare.
  destruct (Z.compare_spec (-52) e) as [<-|Hlt|Hgt].
  - pose proof (Pos.compare_spec 4503599627370496 m) as Hc.
    unfold Pos.compare in Hc.
    destruct Hc as [Hm|Hm|Hm].
    + split; [intros _|reflexivity]. right. split; [reflexivity|].
      rewrite <- Hm. apply Z.le_refl.
    + split; [intros _|reflexivity]. right. split; [reflexivity|].
      apply Z.lt_le_incl. exact Hm.
    + split; [intros H; discriminate H|]. intros [H|[_ H]].
      * exfalso. revert H. apply Z.lt_irrefl.
      * exfalso. apply (Pos.lt_irrefl m). eapply Pos.lt_le_trans; [exact Hm|exact H].
  - split; [intros _; left; exact Hlt | reflexivity].
  - split; [intros H; discriminate H|]. intros [H|[H _]].
    + exfalso. apply (Z.lt_irrefl e). by etrans.
    + subst e. exfalso. revert Hgt. apply Z.lt_irrefl.
Qed.

(** [1 <= x] on doubles is [1 <= x] on what they stand for. *)
Lemma SFleb_one_spec (x : spec_float) :
  valid_binary x = true →
  SFleb SFone x = true ↔
    x = S754_infinity false ∨ ∃ q, SF2Q x = Some q ∧ (1 <= q)%Q.
Proof.
  intros Hvalid. destruct x as [s|s| |s m e].
  - split; [intros H; discriminate H|]. intros [[=]|(q & [= <-] & Hq)]. done.
  - destruct s; split.
    + intros H; discriminate H.
    + intros [[=]|(q & [=] & _)].
    + by left.
    + done.
  - split; [intros H; discriminate H|]. intros [[=]|(q & [=] & _)].
  - apply valid_binary_bounds in Hvalid as (He & Hhi & Hlo). destruct s.
    + split; [intros H; discriminate H|]. intros [[=]|(q & Hq & Hle)].
      apply negative_lt_zero in Hq. exfalso. apply (Qlt_irrefl 0).
      apply Qle_lt_trans with q; [|done]. by apply Qle_trans with 1%Q.
    + rewrite SFleb_one_cmp. split.
      * intros Hcase. right.
        destruct (SF2Q (S754_finite false m e)) as [q|] eqn:Hq; [|done].
        exists q. split; [done|]. apply (positive_ge_one m e q Hq).
        destruct (Z.leb_spec 0 e); [by left|right]. split; [done|].
        destruct Hcase as [Hcase|[-> Hcase]]; [|exact Hcase].
        assert (2 ^ (- e) ≤ 2 ^ 52)%Z as Hpow by (apply Z.pow_le_mono_r; lia).
        etrans; [exact Hpow|]. apply Hlo. lia.
      * intros [[=]|(q & Hq & Hle)]. apply (positive_ge_one m e q Hq) in Hle.
        destruct (Z.compare_spec (-52) e) as [<-|Hlt|Hgt]; [|by left|].
        -- right. split; [done|]. destruct Hle as [Hle|[_ Hle]]; [lia|exact Hle].
        -- destruct Hle as [Hle|[_ Hle]]; [lia|]. exfalso.
           assert (2 ^ 53 ≤ 2 ^ (- e))%Z as Hpow by (apply Z.pow_le_mono_r; lia).
           apply (Z.lt_irrefl (Zpos m)).
           eapply Z.lt_le_trans; [exact Hhi|]. etrans; [exact Hpow|exact Hle].
Qed.

(** [0 <= x] on doubles is [0 <= x] on what they stand for. *)
Lemma SFleb_zero_spec (x : spec_float) :
  SFleb (S754_zero false) x = true ↔
    x = S754_infinity false ∨ ∃ q, SF2Q x = Some q ∧ (0 <= q)%Q.
Proof.
  destruct x as [s|s| |s m e].
  - split; [|done]. intros _. right. by exists 0%Q.
  - destruct s; split.
    + intros H; discriminate H.
    + intros [[=]|(q & [=] & _)].
    + by left.
    + done.
  - split; [intros H; discriminate H|]. intros [[=]|(q & [=] & _)].
  - destruct s.
    + split; [intros H; discriminate H|]. intros [[=]|(q & Hq & Hle)].
      apply negative_lt_zero in Hq. exfalso. apply (Qlt_irrefl 0).
      by apply Qle_lt_trans with q.
    + split; [|done]. intros _. right.
      destruct (SF2Q (S754_finite false m e)) as [q|] eqn:Hq; [|done].
      exists q. split; [done|]. by apply Qlt_le_weak, (positive_gt_zero m e).
Qed.

(** [Number.isInteger] holds of the doubles that stand for an integer. *)
Lemma isIntegerSF_spec (x : spec_float) :
  isIntegerSF x = true ↔ ∃ q (n : Z), SF2Q x = Some q ∧ (q == inject_Z n)%Q.
Proof.
  destruct x as [s|s| |s m e].
  - split; [|done]. intros _. by exists 0%Q, 0%Z.
  - split; [done|]. by intros (q & n & [=] & _).
  - split; [done|]. by intros (q & n & [=] & _).
  - unfold isIntegerSF. destruct (Z.leb_spec 0 e) as [He|He].
    + rewrite SF2Q_finite_nonneg by done. split; [|done]. intros _.
      eexists _, _. split; [done|]. reflexivity.
    + rewrite SF2Q_finite_neg by done. simpl orb. rewrite Z.eqb_eq.
      assert (Hpos : (0 < 2 ^ (- e))%Z) by (apply Z.pow_pos_nonneg; lia).
      split.
      * intros Hmod. eexists _, (cond_Zopp s (Zpos m / 2 ^ (- e)))%Z.
        split; [done|]. unfold Qeq. simpl. rewrite pos_pow2 by lia.
        apply Z.div_exact in Hmod; [|lia].
        destruct s; simpl; lia.
      * intros (q & n & [= <-] & Hq). unfold Qeq in Hq. simpl in Hq.
        rewrite pos_pow2 in Hq by lia.
        assert (Zpos m = cond_Zopp s n * 2 ^ (- e))%Z as ->
          by (destruct s; simpl in *; lia).
        by apply Z.mod_mul, Z.neq_sym, Z.lt_neq.
Qed.

Lemma Prim2SF_infinity (x : number) :
  Prim2SF x = S754_infinity false ↔ x = infinity.
Proof.
  split; [|by intros ->]. intros Hx. by apply Prim2SF_inj.
Qed.

Lemma num_ge_one_spec (x : number) :
  num_ge x 1 = true ↔ x = infinity ∨ ∃ q, valueOf x = Some q ∧ (1 <= q)%Q.
Proof.
  unfold num_ge, valueOf. rewrite FloatAxioms.leb_spec, <- Prim2SF_infinity.
  change (Prim2SF 1) with SFone. apply SFleb_one_spec, Prim2SF_valid.
Qed.

Lemma num_ge_zero_spec (x : number) :
  num_ge x 0 = true ↔ x = infinity ∨ ∃ q, valueOf x = Some q ∧ (0 <= q)%Q.
Proof.
  unfold num_ge, valueOf. rewrite FloatAxioms.leb_spec, <- Prim2SF_infinity.
  change (Prim2SF 0) with (S754_zero false). apply SFleb_zero_spec.
Qed.

Lemma isInteger_spec (x : number) :
  isInteger x = true ↔ ∃ q (n : Z), valueOf x = Some q ∧ (q == inject_Z n)%Q.
Proof. apply isIntegerSF_spec. Qed.

Lemma SFeqb_refl_iff (x : spec_float) : SFeqb x x = true ↔ x ≠ S754_nan.
Proof.
  unfold SFeqb, SFcompare. destruct x as [s|s| |s m e]; try by destruct s.
  - done.
  - rewrite Z.compare_refl.
    change (Pos.compare_cont Eq m m) with (Pos.compare m m).
    rewrite Pos.compare_refl. by destruct s.
Qed.

Lemma is_nan_spec (x : number) : is_nan x = false ↔ Prim2SF x ≠ S754_nan.
Proof.
  unfold is_nan. rewrite FloatAxioms.eqb_spec.
  pose proof (SFeqb_refl_iff (Prim2SF x)) as Hrefl.
  destruct (SFeqb (Prim2SF x) (Prim2SF x)); simpl; split; try done.
  - intros _. by apply Hrefl.
  - intros Hx. by apply Hrefl in Hx.
Qed.

Lemma is_finite_spec (x : number) : is_finite x = true ↔ is_Some (valueOf x).
Proof.
  unfold is_finite, is_infinity, valueOf.
  destruct (is_nan x) eqn:Hnan.
  - simpl. split; [done|]. intros [q Hq].
    assert (Prim2SF x ≠ S754_nan) as Hx by (intros E; by rewrite E in Hq).
    apply is_nan_spec in Hx. congruence.
  - apply is_nan_spec in Hnan. simpl. rewrite FloatAxioms.eqb_spec, FloatAxioms.abs_spec.
    change (Prim2SF infinity) with (S754_infinity false).
    destruct (Prim2SF x) as [s|s| |s m e]; simpl.
    + split; [|done]. intros _. by eexists.
    + split; [done|]. by intros [? [=]].
    + by destruct Hnan.
    + split; [|done]. intros _. by eexists.
Qed.

(** A number above 0 is not [=== 0]. *)
Lemma num_eq_positive (q : number) : (0 <? q)%float = true → num_eq q 0 = false.
Proof.
  unfold num_eq. rewrite FloatAxioms.ltb_spec, FloatAxioms.eqb_spec.
  change (Prim2SF 0) with (S754_zero false).
  unfold SFltb, SFeqb, SFcompare.
  destruct (Prim2SF q) as [s|s| |s m e]; try done; by destruct s.
Qed.

(** Comparison of a positive double with a positive integer of exponent 0. *)
Lemma SFleb_finite_cmp (m k : positive) (e : Z) :
  SFleb (S754_finite false m e) (S754_finite false k 0) = true ↔
    (e < 0)%Z ∨ (e = 0 ∧ Zpos m ≤ Zpos k)%Z.
Proof.
  unfold SFleb, SFcompare.
  destruct (Z.compare_spec e 0) as [He|He|He].
  - pose proof (Pos.compare_spec m k) as Hc.
    unfold Pos.compare in Hc.
    destruct Hc as [Hm|Hm|Hm].
    + split; [intros _|reflexivity]. right. split; [exact He|].
      rewrite Hm. apply Z.le_refl.
    + split; [intros _|reflexivity]. right. split; [exact He|].
      apply Z.lt_le_incl. apply Pos2Z.pos_lt_pos. exact Hm.
    + split; [intros H; discriminate H|]. intros [H|[_ H]].
      * exfalso. rewrite He in H. revert H. apply Z.lt_irrefl.
      * exfalso. apply (Pos.lt_irrefl m). eapply Pos.le_lt_trans; [|exact Hm].
        apply Pos2Z.pos_le_pos in H || exact H.
  - split; [intros _; left; exact He | reflexivity].
  - split; [intros H; discriminate H|]. intros [H|[H _]].
    + exfalso. apply (Z.lt_irrefl e). by etrans.
    + rewrite H in He. exfalso. revert He. apply Z.lt_irrefl.
Qed.

Lemma Qle_inject_make (n k : Z) (d : positive) :
  (Qmake n d <= inject_Z k)%Q ↔ (n ≤ k * Zpos d)%Z.
Proof. unfold Qle, inject_Z, Qnum, Qden. by rewrite Z.mul_1_r. Qed.

Lemma Qle_inject_inject (n k : Z) : (inject_Z n <= inject_Z k)%Q ↔ (n ≤ k)%Z.
Proof. unfold Qle, inject_Z, Qnum, Qden. by rewrite !Z.mul_1_r. Qed.

(** [|x| <= k] for a double [x >= 0] whose significand lies below [2 * P],
    and is at least [P] when the exponent is positive, with [k = 2 * P - 1]. *)
Lemma SFleb_bound_spec (P : Z) (k : positive) (x : spec_float) (q : Q) :
  (0 < P)%Z → Zpos k = (2 * P - 1)%Z →
  (∀ s m e, x = S754_finite s m e →
     (Zpos m < 2 * P)%Z ∧ ((0 < e)%Z → (P ≤ Zpos m)%Z)) →
  SF2Q x = Some q → (0 <= q)%Q →
  SFleb (SFabs x) (S754_finite false k 0) = true ↔ (q <= inject_Z (Zpos k))%Q.
Proof.
  intros HP Hk Hvalid Hq Hpos. destruct x as [s|s| |s m e].
  - injection Hq as <-. split; [intros _|reflexivity].
    change 0%Q with (inject_Z 0). apply Qle_inject_inject. discriminate.
  - discriminate Hq.
  - discriminate Hq.
  - destruct s.
    { apply negative_lt_zero in Hq. exfalso. apply (Qlt_irrefl 0).
      by apply Qle_lt_trans with q. }
    destruct (Hvalid _ _ _ eq_refl) as [Hhi Hlo].
    change (SFabs (S754_finite false m e)) with (S754_finite false m e).
    rewrite SFleb_finite_cmp.
    assert (Hm : (Zpos m ≤ Zpos k)%Z) by lia.
    destruct (Z.compare_spec e 0) as [He|He|He].
    + subst e. rewrite SF2Q_finite_nonneg in Hq by reflexivity. injection Hq as <-.
      rewrite Qle_inject_inject. change (cond_Zopp false (Zpos m)) with (Zpos m).
      rewrite Z.pow_0_r, Z.mul_1_r. split; [done|]. intros _. by right.
    + rewrite SF2Q_finite_neg in Hq by done. injection Hq as <-.
      rewrite Qle_inject_make. change (cond_Zopp false (Zpos m)) with (Zpos m).
      split; [|intros _; by left]. intros _.
      apply Z.le_trans with (Zpos k * 1)%Z.
      * by rewrite Z.mul_1_r.
      * apply Z.mul_le_mono_nonneg_l; [discriminate|]. apply Pos2Z.pos_le_pos, Pos.le_1_l.
    + rewrite SF2Q_finite_nonneg in Hq by (by apply Z.lt_le_incl). injection Hq as <-.
      rewrite Qle_inject_inject. change (cond_Zopp false (Zpos m)) with (Zpos m).
      split.
      * intros [H|[H _]]; exfalso; lia.
      * intros Hle. exfalso.
        assert (2 ^ 1 ≤ 2 ^ e)%Z as Hpow.
        { apply Z.pow_le_mono_r; [reflexivity|]. by apply Z.le_succ_l in He. }
        change (2 ^ 1)%Z with 2%Z in Hpow.
        specialize (Hlo He). nia.
Qed.

Lemma SFmaxSafe_eq : Zpos 9007199254740991 = (2 * 2 ^ 52 - 1)%Z.
Proof. vm_compute. reflexivity. Qed.

Lemma pow2_53 : (2 ^ 53 = 2 * 2 ^ 52)%Z.
Proof. vm_compute. reflexivity. Qed.

(** [|x| <= Number.MAX_SAFE_INTEGER] for a double that is zero or positive. *)
Lemma SFleb_maxSafe_spec (x : spec_float) (q : Q) :
  valid_binary x = true → SF2Q x = Some q → (0 <= q)%Q →
  SFleb (SFabs x) SFmaxSafe = true ↔ (q <= inject_Z 9007199254740991)%Q.
Proof.
  intros Hvalid Hq Hpos.
  apply (SFleb_bound_spec (2 ^ 52) 9007199254740991 x q); try assumption.
  - apply Z.pow_pos_nonneg; [reflexivity|discriminate].
  - exact SFmaxSafe_eq.
  - intros s m e ->. apply valid_binary_bounds in Hvalid as (He & Hhi & Hlo).
    rewrite <- pow2_53. split; [exact Hhi|].
    intros H. apply Hlo. apply Z.lt_trans with 0%Z; [reflexivity|exact H].
Qed.

(** ** Validation *)

Lemma valueOf_not_nan (x : number) (q : Q) : valueOf x = Some q → is_nan x = false.
Proof.
  intros Hq. apply is_nan_spec. unfold valueOf in Hq. intros E. by rewrite E in Hq.
Qed.

Lemma Prim2SF_maxSafe : Prim2SF MAX_SAFE_INTEGER = SFmaxSafe.
Proof. reflexivity. Qed.

(** [|x| <= Number.MAX_SAFE_INTEGER], for a number that is zero or positive. *)
Lemma abs_le_maxSafe_spec (x : number) (q : Q) :
  valueOf x = Some q → (0 <= q)%Q →
  (abs x <=? MAX_SAFE_INTEGER)%float = true ↔ (q <= inject_Z 9007199254740991)%Q.
Proof.
  intros Hq Hpos.
  rewrite FloatAxioms.leb_spec, FloatAxioms.abs_spec, Prim2SF_maxSafe.
  apply SFleb_maxSafe_spec; [apply Prim2SF_valid|exact Hq|exact Hpos].
Qed.

Section Validation.
Context {zod : ZodVersion}.

Lemma z_int_accepts_isInteger (x : number) :
  z_int_accepts x = true → isInteger x = true.
Proof.
  unfold z_int_accepts, isSafeInteger. destruct zod; [done|].
  by intros [? _]%andb_prop.
Qed.

Lemma z_string_min_spec (v : option json) :
  is_Some (z_string_min 1 v) ↔ isNonEmptyString v.
Proof.
  unfold z_string_min, isNonEmptyString. split.
  - destruct v as [[| | |s| |]|]; try by intros [? [=]].
    destruct s as [|c s]; simpl; [by intros [? [=]]|]. intros _. by eexists.
  - intros (s & -> & Hs). destruct s as [|c s]; [done|]. by eexists.
Qed.

Lemma z_number_int_min_inv (kf x : number) (v : option json) :
  z_number_int_min kf v = Some x →
  v = Some (JNumber x) ∧ z_number_accepts x = true ∧ z_int_accepts x = true ∧
  num_ge x kf = true.
Proof.
  unfold z_number_int_min. destruct v as [[| |y| | |]|]; try done.
  destruct (z_number_accepts y) eqn:Ha; [|done].
  destruct (z_int_accepts y) eqn:Hi; [|done].
  destruct (num_ge y kf) eqn:Hk; [|done]. simpl. by intros [= <-].
Qed.

Lemma z_number_min_inv (kf x : number) (v : option json) :
  z_number_min kf v = Some x →
  v = Some (JNumber x) ∧ z_number_accepts x = true ∧ num_ge x kf = true.
Proof.
  unfold z_number_min. destruct v as [[| |y| | |]|]; try done.
  destruct (z_number_accepts y) eqn:Ha; [|done].
  destruct (num_ge y kf) eqn:Hk; [|done]. simpl. by intros [= <-].
Qed.

Section Bound.
(** A bound [kf] of a schema, and the integer [k] it stands for. *)
Variables (kf : number) (k : Z).
Hypothesis Hk : (0 ≤ k)%Z.
Hypothesis num_ge_spec : ∀ x,
  num_ge x kf = true ↔
    x = infinity ∨ ∃ q, valueOf x = Some q ∧ (inject_Z k <= q)%Q.

Lemma z_number_int_min_value (v : option json) :
  is_Some (z_number_int_min kf v) → isIntegerAtLeast k v.
Proof.
  intros [x (-> & _ & Hint & Hge)%z_number_int_min_inv].
  apply z_int_accepts_isInteger, isInteger_spec in Hint as (q & n & Hq & Hn).
  apply num_ge_spec in Hge as [->|(q' & Hq' & Hle)]; [done|].
  rewrite Hq in Hq'. injection Hq' as <-.
  exists n. split; [|by exists x, q].
  apply Qle_inject_inject. by rewrite <- Hn.
Qed.

Lemma z_number_min_value (v : option json) :
  is_Some (z_number_min kf v) → isNumberAtLeast k v.
Proof.
  intros [x (-> & _ & Hge)%z_number_min_inv].
  exists x. split; [done|]. by apply num_ge_spec.
Qed.

Lemma z_number_int_min_spec (v : option json) :
  is_Some (z_number_int_min kf v) ↔ acceptedInteger k v.
Proof.
  split.
  - intros Hsome. pose proof (z_number_int_min_value v Hsome) as (n & Hn & x & q & -> & Hq & Hqn).
    destruct Hsome as [y (E & _ & Hint & _)%z_number_int_min_inv].
    injection E as <-.
    unfold acceptedInteger. unfold z_int_accepts, isSafeInteger in Hint.
    destruct zod; [by exists n; split; [|exists x, q]|].
    apply andb_prop in Hint as [_ Hsafe].
    assert (Hpos : (0 <= q)%Q).
    { rewrite Hqn. change 0%Q with (inject_Z 0). apply Qle_inject_inject. by etrans. }
    apply (abs_le_maxSafe_spec x q Hq Hpos) in Hsafe.
    exists n. split; [|by exists x, q]. split; [done|].
    apply Qle_inject_inject. by rewrite <- Hqn.
  - assert (Hint : ∀ n x q, (k ≤ n)%Z → valueOf x = Some q → (q == inject_Z n)%Q →
        isInteger x = true ∧ num_ge x kf = true ∧ (0 <= q)%Q).
    { intros n x q Hn Hq Hqn. split_and!.
      - apply isInteger_spec. by exists q, n.
      - apply num_ge_spec. right. exists q. split; [done|].
        rewrite Hqn. by apply Qle_inject_inject.
      - rewrite Hqn. change 0%Q with (inject_Z 0). apply Qle_inject_inject. by etrans. }
    unfold acceptedInteger, z_number_int_min, z_number_accepts, z_int_accepts,
      isSafeInteger.
    destruct zod.
    + intros (n & Hn & x & q & -> & Hq & Hqn).
      destruct (Hint n x q Hn Hq Hqn) as (-> & -> & _).
      rewrite (valueOf_not_nan x q Hq). by eexists.
    + intros (n & [Hn Hmax] & x & q & -> & Hq & Hqn).
      destruct (Hint n x q Hn Hq Hqn) as (-> & -> & Hpos).
      assert (is_finite x = true) as -> by (apply is_finite_spec; by eexists).
      assert ((abs x <=? MAX_SAFE_INTEGER)%float = true) as ->; [|by eexists].
      apply (abs_le_maxSafe_spec x q Hq Hpos). rewrite Hqn. by apply Qle_inject_inject.
Qed.

Lemma z_number_min_spec (v : option json) :
  num_ge infinity kf = true →
  is_Some (z_number_min kf v) ↔ acceptedNumber k v.
Proof.
  intros Hinf. split.
  - intros Hsome. pose proof (z_number_min_value v Hsome) as (x & -> & Hx).
    destruct Hsome as [y (E & Hacc & _)%z_number_min_inv]. injection E as <-.
    unfold acceptedNumber. unfold z_number_accepts in Hacc.
    destruct zod; [by exists x|].
    apply is_finite_spec in Hacc as [q Hq].
    destruct Hx as [->|(q' & Hq' & Hle)]; [done|].
    rewrite Hq in Hq'. injection Hq' as <-. by exists x, q.
  - unfold acceptedNumber, z_number_min, z_number_accepts. destruct zod.
    + intros (x & -> & Hx).
      assert (num_ge x kf = true) as -> by (by apply num_ge_spec).
      destruct Hx as [->|(q & Hq & _)]; [by eexists|].
      rewrite (valueOf_not_nan x q Hq). by eexists.
    + intros (x & q & -> & Hq & Hle).
      assert (num_ge x kf = true) as -> by (apply num_ge_spec; eauto).
      assert (is_finite x = true) as -> by (apply is_finite_spec; by eexists).
      by eexists.
Qed.
End Bound.

Lemma CartItemSchema_inv (b : json) (item : CartItem) :
  CartItemSchema b = Some item →
  z_string_min 1 (getField b "productId") = Some (productId item) ∧
  z_number_int_min 1 (getField b "quantity") = Some (quantity item) ∧
  z_number_min 0 (getField b "price") = Some (price item).
Proof.
  unfold CartItemSchema.
  destruct (z_string_min 1 _) as [p|]; [|done].
  destruct (z_number_int_min 1 _) as [q|]; [|done].
  destruct (z_number_min 0 _) as [pr|]; [|done]. by intros [= <-].
Qed.

Lemma CartItemSchema_Some (b : json) :
  is_Some (CartItemSchema b) ↔
    is_Some (z_string_min 1 (getField b "productId")) ∧
    is_Some (z_number_int_min 1 (getField b "quantity")) ∧
    is_Some (z_number_min 0 (getField b "price")).
Proof.
  unfold CartItemSchema.
  destruct (z_string_min 1 _) as [p|]; [|split; [by intros [? [=]]|by intros ([? [=]] & _)]].
  destruct (z_number_int_min 1 _) as [q|];
    [|split; [by intros [? [=]]|by intros (_ & [? [=]] & _)]].
  destruct (z_number_min 0 _) as [pr|];
    [|split; [by intros [? [=]]|by intros (_ & _ & [? [=]])]].
  split; [intros _; split_and!; by eexists | intros _; by eexists].
Qed.

Lemma UpdateCartItemSchema_Some (b : json) :
  is_Some (UpdateCartItemSchema b) ↔
    is_Some (z_string_min 1 (getField b "productId")) ∧
    is_Some (z_number_int_min 0 (getField b "quantity")).
Proof.
  unfold UpdateCartItemSchema.
  destruct (z_string_min 1 _) as [p|]; [|split; [by intros [? [=]]|by intros ([? [=]] & _)]].
  destruct (z_number_int_min 0 _) as [q|];
    [|split; [by intros [? [=]]|by intros (_ & [? [=]])]].
  split; [intros _; split; by eexists | intros _; by eexists].
Qed.

(** What a body that passes a schema is, in the words of the specification. *)
Lemma CartItemSchema_value (b : json) :
  is_Some (CartItemSchema b) →
  isNonEmptyString (getField b "productId") ∧
  isIntegerAtLeast 1 (getField b "quantity") ∧
  isNumberAtLeast 0 (getField b "price").
Proof.
  intros (Hp & Hq & Hpr)%CartItemSchema_Some. split_and!.
  - by apply z_string_min_spec.
  - by apply (z_number_int_min_value 1 1 num_ge_one_spec).
  - by apply (z_number_min_value 0 0 num_ge_zero_spec).
Qed.

Lemma UpdateCartItemSchema_value (b : json) :
  is_Some (UpdateCartItemSchema b) →
  isNonEmptyString (getField b "productId") ∧
  isIntegerAtLeast 0 (getField b "quantity").
Proof.
  intros (Hp & Hq)%UpdateCartItemSchema_Some. split.
  - by apply z_string_min_spec.
  - by apply (z_number_int_min_value 0 0 num_ge_zero_spec).
Qed.

(** The same, with the bounds of the version in use, and both ways. *)
Lemma CartItemSchema_spec (b : json) :
  is_Some (CartItemSchema b) ↔
    isNonEmptyString (getField b "productId") ∧
    acceptedInteger 1 (getField b "quantity") ∧
    acceptedNumber 0 (getField b "price").
Proof.
  rewrite CartItemSchema_Some, z_string_min_spec.
  rewrite (z_number_int_min_spec 1 1 ltac:(done) num_ge_one_spec).
  by rewrite (z_number_min_spec 0 0 num_ge_zero_spec _ eq_refl).
Qed.

Lemma UpdateCartItemSchema_spec (b : json) :
  is_Some (UpdateCartItemSchema b) ↔
    isNonEmptyString (getField b "productId") ∧
    acceptedInteger 0 (getField b "quantity").
Proof.
  rewrite UpdateCartItemSchema_Some, z_string_min_spec.
  by rewrite (z_number_int_min_spec 0 0 ltac:(done) num_ge_zero_spec).
Qed.

Lemma CartItemSchema_fields (b : json) (item : CartItem) :
  CartItemSchema b = Some item →
  getField b "productId" = Some (JString (productId item)) ∧
  getField b "quantity" = Some (JNumber (quantity item)) ∧
  getField b "price" = Some (JNumber (price item)).
Proof.
  intros (Hp & (Hq & _)%z_number_int_min_inv & (Hpr & _)%z_number_min_inv)%CartItemSchema_inv.
  split_and!; [|done..].
  unfold z_string_min in Hp.
  destruct (getField b "productId") as [[| | |p| |]|]; try done.
  destruct (1 <=? String.length p)%nat; [|done]. by injection Hp as ->.
Qed.

Lemma CartItemSchema_valid (b : json) (item : CartItem) :
  CartItemSchema b = Some item → item_valid item.
Proof.
  intros (Hp & _ & (_ & _ & Hpr)%z_number_min_inv)%CartItemSchema_inv.
  split; [|done].
  assert (Hs : isNonEmptyString (getField b "productId"))
    by (apply z_string_min_spec; by eexists).
  destruct Hs as (s & Hs & Hne). rewrite Hs in Hp.
  destruct s as [|c s]; [done|]. simpl in Hp. by injection Hp as <-.
Qed.

Lemma UpdateCartItemSchema_valid (b : json) (p : string) (q : number) :
  UpdateCartItemSchema b = Some (mkUpdate p q) → p ≠ "".
Proof.
  unfold UpdateCartItemSchema.
  destruct (z_string_min 1 _) as [p'|] eqn:Hp; [|done].
  destruct (z_number_int_min 0 _) as [q'|]; [|done]. intros [= <- <-].
  assert (Hs : isNonEmptyString (getField b "productId"))
    by (apply z_string_min_spec; by eexists).
  destruct Hs as (s & Hs & Hne). rewrite Hs in Hp.
  destruct s as [|c s]; [done|]. simpl in Hp. by injection Hp as <-.
Qed.

End Validation.

Lemma DeleteCartItemSchema_spec (itemId : option string) :
  DeleteCartItemSchema itemId = None ↔ itemId = None ∨ itemId = Some "".
Proof.
  destruct itemId as [[|c s]|]; simpl; split; try done; try tauto.
  intros [[=]|[=]].
Qed.

Lemma DeleteCartItemSchema_Some (p : string) :
  p ≠ "" → DeleteCartItemSchema (Some p) = Some p.
Proof. by destruct p. Qed.

(** * Properties *)

(** ** Arrays *)

Section ArrayLemmas.
Context {A : Type} (pred : A → bool).

Lemma findIndex_None (xs : list A) :
  findIndex pred xs = None ↔ Forall (λ x, pred x = false) xs.
Proof.
  induction xs as [|x xs IH]; simpl.
  - split; [constructor | done].
  - destruct (pred x) eqn:Hx.
    + split; [done | inversion 1; congruence].
    + rewrite fmap_None, IH, Forall_cons. tauto.
Qed.

Lemma findIndex_Some (xs : list A) (i : nat) :
  findIndex pred xs = Some i →
  ∃ l1 x l2, xs = l1 ++ x :: l2 ∧ length l1 = i ∧ pred x = true ∧
             Forall (λ y, pred y = false) l1.
Proof.
  revert i. induction xs as [|x xs IH]; intros i; simpl; [done|].
  destruct (pred x) eqn:Hx.
  - intros [= <-]. by exists [], x, xs.
  - intros (j & Hj & ->)%fmap_Some.
    destruct (IH j Hj) as (l1 & y & l2 & -> & <- & Hy & Hl1).
    exists (x :: l1), y, l2. split_and!; [done..|]. by constructor.
Qed.

Lemma findIndex_middle (l1 l2 : list A) (x : A) :
  Forall (λ y, pred y = false) l1 → pred x = true →
  findIndex pred (l1 ++ x :: l2) = Some (length l1).
Proof.
  induction 1 as [|y l1 Hy _ IH]; intros Hx; simpl.
  - by rewrite Hx.
  - by rewrite Hy, IH.
Qed.

Lemma findIndex_split (xs : list A) (i : nat) :
  findIndex pred xs = Some i →
  ∃ l1 x l2, xs = l1 ++ x :: l2 ∧ length l1 = i.
Proof.
  intros (l1 & x & l2 & -> & <- & _)%findIndex_Some. by exists l1, x, l2.
Qed.
End ArrayLemmas.

Lemma alter_middle {A} (f : A → A) (l1 l2 : list A) (x : A) :
  alter f (length l1) (l1 ++ x :: l2) = l1 ++ f x :: l2.
Proof. induction l1 as [|y l1 IH]; [done|]. cbn. by f_equal. Qed.

Lemma hasProductId_true (p : string) (item : CartItem) :
  hasProductId p item = true ↔ productId item = p.
Proof. unfold hasProductId. apply String.eqb_eq. Qed.

Lemma hasProductId_false (p : string) (item : CartItem) :
  hasProductId p item = false ↔ productId item ≠ p.
Proof. unfold hasProductId. apply String.eqb_neq. Qed.

Lemma absent_Forall (p : string) (cart : list CartItem) :
  Forall (λ item, hasProductId p item = false) cart ↔ p ∉ productId <$> cart.
Proof.
  rewrite Forall_forall, list_elem_of_fmap. split.
  - intros H (item & -> & Hin). by apply H, hasProductId_false in Hin.
  - intros H item Hin. apply hasProductId_false. intros <-. apply H. eauto.
Qed.

Lemma present_split (p : string) (cart : list CartItem) :
  p ∈ productId <$> cart →
  ∃ l1 item l2, cart = l1 ++ item :: l2 ∧ productId item = p ∧
                (p ∉ productId <$> l1) ∧
                findIndex (hasProductId p) cart = Some (length l1).
Proof.
  intros Hin. destruct (findIndex (hasProductId p) cart) as [i|] eqn:Hfind.
  - destruct (findIndex_Some _ _ _ Hfind) as (l1 & item & l2 & -> & <- & Hp & Hl1).
    exists l1, item, l2. split_and!; [done| |by apply absent_Forall|done].
    by apply hasProductId_true.
  - by apply findIndex_None, absent_Forall in Hfind.
Qed.

Lemma unique_middle (l1 l2 : list CartItem) (item : CartItem) :
  cart_unique (l1 ++ item :: l2) → productId item ∉ productId <$> (l1 ++ l2).
Proof.
  unfold cart_unique. rewrite !fmap_app, fmap_cons.
  intros (_ & Hl1 & [Hl2 _]%NoDup_cons)%NoDup_app.
  intros [Hin|Hin]%elem_of_app; [|done].
  apply (Hl1 _ Hin). by left.
Qed.

Lemma itemsOf_absent (p : string) (cart : list CartItem) :
  p ∉ productId <$> cart → itemsOf p cart = [].
Proof.
  unfold itemsOf. induction cart as [|item cart IH]; [done|].
  rewrite fmap_cons, not_elem_of_cons. intros [Hne Hnin].
  rewrite filter_cons_False by congruence. by apply IH.
Qed.

(** ** What [carts[userId]] is *)

Lemma slotOf_own (carts : store) (u : string) (cart : list CartItem) :
  carts !! u = Some cart → slotOf carts u = OwnCart cart.
Proof. unfold slotOf. by intros ->. Qed.

Lemma slotOf_inherited (carts : store) (u : string) :
  slotOf carts u = InheritedValue ↔ namesInherited carts u.
Proof.
  unfold slotOf, namesInherited. destruct (carts !! u) as [cart|].
  - split; [done | by intros [[=] _]].
  - case_bool_decide; split; try done. by intros [_ ?].
Qed.

Lemma namesInherited_own (carts : store) (u : string) :
  is_Some (carts !! u) → ¬ namesInherited carts u.
Proof. intros [cart Hcart] [Hnone _]. congruence. Qed.

(** ** The handlers, case by case *)

Ltac unfold_handler :=
  unfold tryCatch, requestJson, parse, readCart, writeCart, arrayOf, throw, onError,
    mbind, handler_bind, mret, handler_ret.

Lemma GET_eq (req : Request) (carts : store) :
  GET req carts =
    match slotOf carts (userIdOf req) with
    | InheritedValue => (failure 500 "Failed to fetch cart items", carts)
    | _ =>
      let cartItems := default [] (carts !! userIdOf req) in
      (ok (CartListing cartItems (length cartItems) (totalPriceOf cartItems)), carts)
    end.
Proof.
  unfold GET. unfold_handler. unfold slotOf.
  destruct (carts !! userIdOf req) as [cart|]; [done|]. by case_bool_decide.
Qed.

Lemma DELETE_eq (req : Request) (carts : store) :
  DELETE req carts =
    match DeleteCartItemSchema (param_itemId req) with
    | None => (failure 400 "Invalid input", carts)
    | Some itemId =>
      match carts !! userIdOf req with
      | None =>
        if bool_decide (userIdOf req ∈ objectPrototypeKeys)
        then (failure 500 "Failed to remove item from cart", carts)
        else (failure 404 "Cart not found", carts)
      | Some cart =>
        match findIndex (hasProductId itemId) cart with
        | None => (failure 404 "Item not found in cart", carts)
        | Some i =>
          (ok (ItemRemoved "Item removed from cart successfully" itemId),
           <[userIdOf req := delete i cart]> carts)
        end
      end
    end.
Proof.
  unfold DELETE. unfold_handler. unfold slotOf.
  destruct (DeleteCartItemSchema _) as [itemId|]; [|done].
  destruct (carts !! userIdOf req) as [cart|]; [|by case_bool_decide].
  by destruct (findIndex _ cart).
Qed.

Lemma DELETE_valid (req : Request) (carts : store) (itemId : string) :
  DeleteCartItemSchema (param_itemId req) = Some itemId →
  DELETE req carts =
    match carts !! userIdOf req with
    | None =>
      if bool_decide (userIdOf req ∈ objectPrototypeKeys)
      then (failure 500 "Failed to remove item from cart", carts)
      else (failure 404 "Cart not found", carts)
    | Some cart =>
      match findIndex (hasProductId itemId) cart with
      | None => (failure 404 "Item not found in cart", carts)
      | Some i =>
        (ok (ItemRemoved "Item removed from cart successfully" itemId),
         <[userIdOf req := delete i cart]> carts)
      end
    end.
Proof. intros Hv. rewrite DELETE_eq. by rewrite Hv. Qed.

Section Properties.
Context {zod : ZodVersion}.

Lemma POST_eq (req : Request) (carts : store) :
  POST req carts =
    match req_json req with
    | None => (failure 500 "Failed to add item to cart", carts)
    | Some b =>
      match CartItemSchema b with
      | None => (failure 400 "Invalid input", carts)
      | Some validatedData =>
        match slotOf carts (userIdOf req) with
        | InheritedValue => (failure 500 "Failed to add item to cart", carts)
        | _ =>
          (ok (ItemAdded "Item added to cart successfully" validatedData),
           <[userIdOf req :=
               let cart := default [] (carts !! userIdOf req) in
               match findIndex (hasProductId (productId validatedData)) cart with
               | Some i => alter (addQuantity (quantity validatedData)) i cart
               | None => cart ++ [validatedData]
               end]> carts)
        end
      end
    end.
Proof.
  unfold POST. unfold_handler.
  destruct (req_json req) as [b|]; [|done].
  destruct (CartItemSchema b) as [[p q pr]|]; [|done]. simpl.
  unfold slotOf.
  destruct (carts !! userIdOf req) as [cart|] eqn:Hcart; simpl.
  - rewrite Hcart. simpl. by destruct (findIndex _ cart).
  - case_bool_decide; simpl.
    + by rewrite Hcart.
    + rewrite lookup_insert_eq. simpl. by rewrite insert_insert_eq.
Qed.

Lemma PUT_eq (req : Request) (carts : store) :
  PUT req carts =
    match req_json req with
    | None => (failure 500 "Failed to update cart item", carts)
    | Some b =>
      match UpdateCartItemSchema b with
      | None => (failure 400 "Invalid input", carts)
      | Some validatedData =>
        match carts !! userIdOf req with
        | None =>
          if bool_decide (userIdOf req ∈ objectPrototypeKeys)
          then (failure 500 "Failed to update cart item", carts)
          else (failure 404 "Cart not found", carts)
        | Some cart =>
          match findIndex (hasProductId (upd_productId validatedData)) cart with
          | None => (failure 404 "Item not found in cart", carts)
          | Some i =>
            (ok (ItemUpdated "Cart item updated successfully" validatedData),
             <[userIdOf req :=
                 if num_eq (upd_quantity validatedData) 0
                 then delete i cart
                 else alter (setQuantity (upd_quantity validatedData)) i cart]> carts)
          end
        end
      end
    end.
Proof.
  unfold PUT. unfold_handler. unfold slotOf.
  destruct (req_json req) as [b|]; [|done].
  destruct (UpdateCartItemSchema b) as [[p q]|]; [|done]. simpl.
  destruct (carts !! userIdOf req) as [cart|]; [|by case_bool_decide].
  destruct (findIndex _ cart); [|done]. by destruct (num_eq q 0).
Qed.

(** ** What a handler does on a request that passes validation *)

Lemma POST_valid (req : Request) (carts : store) (b : json) (item : CartItem) :
  req_json req = Some b → CartItemSchema b = Some item →
  ¬ namesInherited carts (userIdOf req) →
  POST req carts =
    (ok (ItemAdded "Item added to cart successfully" item),
     <[userIdOf req :=
         let cart := default [] (carts !! userIdOf req) in
         match findIndex (hasProductId (productId item)) cart with
         | Some i => alter (addQuantity (quantity item)) i cart
         | None => cart ++ [item]
         end]> carts).
Proof.
  intros Hb Hv Hown. rewrite POST_eq, Hb, Hv.
  destruct (slotOf carts (userIdOf req)) eqn:Hslot; [done| |done].
  by apply slotOf_inherited in Hslot.
Qed.

Lemma POST_inherited (req : Request) (carts : store) :
  namesInherited carts (userIdOf req) →
  status (POST req carts).1 ≠ 200 ∧ (POST req carts).2 = carts.
Proof.
  intros Hinh%slotOf_inherited. rewrite POST_eq, Hinh.
  destruct (req_json req) as [b|]; [|done]. by destruct (CartItemSchema b).
Qed.

Lemma PUT_valid (req : Request) (carts : store) (b : json) (p : string) (q : number) :
  req_json req = Some b → UpdateCartItemSchema b = Some (mkUpdate p q) →
  PUT req carts =
    match carts !! userIdOf req with
    | None =>
      if bool_decide (userIdOf req ∈ objectPrototypeKeys)
      then (failure 500 "Failed to update cart item", carts)
      else (failure 404 "Cart not found", carts)
    | Some cart =>
      match findIndex (hasProductId p) cart with
      | None => (failure 404 "Item not found in cart", carts)
      | Some i =>
        (ok (ItemUpdated "Cart item updated successfully" (mkUpdate p q)),
         <[userIdOf req :=
             if num_eq q 0 then delete i cart else alter (setQuantity q) i cart]> carts)
      end
    end.
Proof. intros Hb Hv. rewrite PUT_eq. by rewrite Hb, Hv. Qed.

Lemma POST_ok_inv (req : Request) (carts s' : store) (msg : string) (item : CartItem) :
  POST req carts = (ok (ItemAdded msg item), s') →
  ∃ b, req_json req = Some b ∧ CartItemSchema b = Some item ∧
       ¬ namesInherited carts (userIdOf req).
Proof.
  rewrite POST_eq. unfold ok, failure.
  destruct (req_json req) as [b|]; [|discriminate].
  destruct (CartItemSchema b) as [item'|] eqn:Hv; [|discriminate].
  destruct (slotOf carts (userIdOf req)) eqn:Hslot; [|discriminate|];
    intros H; injection H as _ <- _; exists b; split_and!; try done;
    rewrite <- slotOf_inherited, Hslot; discriminate.
Qed.

Lemma POST_absent (req : Request) (carts : store) (b : json) (item : CartItem) :
  req_json req = Some b → CartItemSchema b = Some item →
  ¬ namesInherited carts (userIdOf req) →
  productId item ∉ productId <$> default [] (carts !! userIdOf req) →
  (POST req carts).2 =
    <[userIdOf req := default [] (carts !! userIdOf req) ++ [item]]> carts.
Proof.
  intros Hb Hv Hown Habsent%absent_Forall%findIndex_None.
  rewrite (POST_valid _ _ _ _ Hb Hv Hown). simpl. by rewrite Habsent.
Qed.

Lemma POST_present (req : Request) (carts : store) (b : json) (item : CartItem)
    (l1 l2 : list CartItem) (old : CartItem) :
  req_json req = Some b → CartItemSchema b = Some item →
  carts !! userIdOf req = Some (l1 ++ old :: l2) →
  productId old = productId item → productId item ∉ productId <$> l1 →
  (POST req carts).2 =
    <[userIdOf req := l1 ++ addQuantity (quantity item) old :: l2]> carts.
Proof.
  intros Hb Hv Hcart Hold Habsent%absent_Forall.
  rewrite (POST_valid _ _ _ _ Hb Hv) by (apply namesInherited_own; by eexists).
  rewrite Hcart. simpl.
  rewrite findIndex_middle by (done || by apply hasProductId_true).
  by rewrite alter_middle.
Qed.

Lemma GET_lookup (req : Request) (carts : store) (cart : list CartItem) :
  carts !! userIdOf req = Some cart →
  GET req carts =
    (ok (CartListing cart (length cart) (totalPriceOf cart)), carts).
Proof. intros Hcart. rewrite GET_eq, (slotOf_own _ _ _ Hcart). by rewrite Hcart. Qed.

Lemma PUT_first_match
    (carts : store) (req : Request) (b : json) (p : string) (q : number)
    (l1 l2 : list CartItem) (item : CartItem) :
  req_json req = Some b → UpdateCartItemSchema b = Some (mkUpdate p q) →
  carts !! userIdOf req = Some (l1 ++ item :: l2) →
  productId item = p → p ∉ productId <$> l1 →
  PUT req carts =
    (ok (ItemUpdated "Cart item updated successfully" (mkUpdate p q)),
     <[userIdOf req :=
         if num_eq q 0 then l1 ++ l2 else l1 ++ setQuantity q item :: l2]> carts).
Proof.
  intros Hb Hv Hcart Hitem Hl1%absent_Forall.
  rewrite (PUT_valid _ _ _ _ _ Hb Hv), Hcart.
  rewrite findIndex_middle by (done || by apply hasProductId_true).
  by rewrite delete_middle, alter_middle.
Qed.

Lemma PUT_present
    (carts : store) (req : Request) (b : json) (p : string) (q : number)
    (cart : list CartItem) :
  let u := userIdOf req in
  carts !! u = Some cart →
  cart_unique cart →
  p ∈ productId <$> cart →
  req_json req = Some b →
  UpdateCartItemSchema b = Some (mkUpdate p q) →
  ∃ l1 item l2,
    cart = l1 ++ item :: l2 ∧ productId item = p ∧
    (p ∉ productId <$> (l1 ++ l2)) ∧
    PUT req carts =
      (ok (ItemUpdated "Cart item updated successfully" (mkUpdate p q)),
       <[u := if num_eq q 0 then l1 ++ l2 else l1 ++ setQuantity q item :: l2]> carts).
Proof.
  intros u Hcart Hunique Hin Hb Hv.
  destruct (present_split _ _ Hin) as (l1 & item & l2 & -> & Hp & Hl1 & Hfind).
  exists l1, item, l2. split_and!; [done..| |].
  - rewrite <- Hp. by apply unique_middle.
  - by apply (PUT_first_match carts req b p q l1 l2 item).
Qed.

Lemma PUT_missing
    (carts : store) (req : Request) (b : json) (p : string) (q : number) :
  req_json req = Some b → UpdateCartItemSchema b = Some (mkUpdate p q) →
  p ∉ productId <$> default [] (carts !! userIdOf req) →
  (PUT req carts).2 = carts ∧ status (PUT req carts).1 ≠ 200.
Proof.
  intros Hb Hv Habsent%absent_Forall%findIndex_None.
  rewrite (PUT_valid _ _ _ _ _ Hb Hv).
  destruct (carts !! userIdOf req) as [cart|]; [|by case_bool_decide].
  simpl in Habsent. by rewrite Habsent.
Qed.

Lemma DELETE_present
    (carts : store) (req : Request) (p : string) (cart : list CartItem) :
  carts !! userIdOf req = Some cart →
  p ∈ productId <$> cart →
  param_itemId req = Some p → p ≠ "" →
  ∃ l1 item l2,
    cart = l1 ++ item :: l2 ∧ productId item = p ∧ (p ∉ productId <$> l1) ∧
    DELETE req carts =
      (ok (ItemRemoved "Item removed from cart successfully" p),
       <[userIdOf req := l1 ++ l2]> carts).
Proof.
  intros Hcart Hin Hparam Hp.
  destruct (present_split _ _ Hin) as (l1 & item & l2 & -> & Hitem & Hl1 & Hfind).
  exists l1, item, l2. split_and!; [done..|].
  assert (Hv : DeleteCartItemSchema (param_itemId req) = Some p).
  { rewrite Hparam. by apply DeleteCartItemSchema_Some. }
  rewrite (DELETE_valid _ _ _ Hv), Hcart, Hfind. by rewrite delete_middle.
Qed.

(** ** One line item per product *)

Lemma cart_unique_alter (f : CartItem → CartItem) (i : nat) (cart : list CartItem) :
  (∀ item, productId (f item) = productId item) →
  cart_unique cart → cart_unique (alter f i cart).
Proof.
  intros Hf. unfold cart_unique.
  rewrite (list_fmap_alter productId f id) by (apply Forall_forall; intros; apply Hf).
  by rewrite list_alter_id.
Qed.

Lemma cart_unique_delete (i : nat) (cart : list CartItem) :
  cart_unique cart → cart_unique (delete i cart).
Proof.
  unfold cart_unique. rewrite list_fmap_delete. intros Hu.
  exact (sublist_NoDup _ _ Hu (sublist_delete _ _)).
Qed.

Lemma cart_unique_push (item : CartItem) (cart : list CartItem) :
  findIndex (hasProductId (productId item)) cart = None →
  cart_unique cart → cart_unique (cart ++ [item]).
Proof.
  intros Habsent%findIndex_None%absent_Forall Hu. unfold cart_unique.
  rewrite fmap_app. apply NoDup_app. split_and!; [done| |apply NoDup_singleton].
  intros p Hp Hq. apply list_elem_of_singleton in Hq. by subst p.
Qed.

Lemma cart_unique_edit (cart cart' : list CartItem) :
  cart_edit cart cart' → cart_unique cart → cart_unique cart'.
Proof.
  intros [l1 l2 old q|l1 l2 old|c new Hnew] Hu.
  - rewrite <- alter_middle. by apply cart_unique_alter.
  - rewrite <- (delete_middle l1 l2 old). by apply cart_unique_delete.
  - apply cart_unique_push; [|done]. by apply findIndex_None, absent_Forall.
Qed.

Lemma store_unique_empty : store_unique ∅.
Proof. intros u cart. by rewrite lookup_empty. Qed.

Lemma store_unique_insert (u : string) (cart : list CartItem) (carts : store) :
  store_unique carts → cart_unique cart → store_unique (<[u := cart]> carts).
Proof.
  intros Hs Hc u' cart'. rewrite lookup_insert.
  case_decide; [by intros [= <-] | apply Hs].
Qed.

Lemma store_unique_default (u : string) (carts : store) :
  store_unique carts → cart_unique (default [] (carts !! u)).
Proof.
  intros Hs. destruct (carts !! u) as [cart|] eqn:Hu; simpl.
  - by apply (Hs u).
  - apply NoDup_nil_2.
Qed.

(** ** The shape of a store update *)

Lemma handle_cart_edit (m : Method) (req : Request) (carts : store) :
  (handle m req carts).2 = carts ∨
  ∃ cart', (handle m req carts).2 = <[userIdOf req := cart']> carts ∧
           cart_edit (default [] (carts !! userIdOf req)) cart'.
Proof.
  destruct m; unfold handle.
  - left. rewrite GET_eq. by destruct (slotOf _ _).
  - rewrite POST_eq.
    destruct (req_json req) as [b|]; [|by left].
    destruct (CartItemSchema b) as [item|] eqn:Hv; [|by left].
    assert (Hedit : cart_edit (default [] (carts !! userIdOf req))
      (let cart := default [] (carts !! userIdOf req) in
       match findIndex (hasProductId (productId item)) cart with
       | Some i => alter (addQuantity (quantity item)) i cart
       | None => cart ++ [item]
       end)).
    { cbv zeta. destruct (findIndex _ _) as [i|] eqn:Hfind.
      - destruct (findIndex_split _ _ _ Hfind) as (l1 & old & l2 & -> & <-).
        rewrite alter_middle. apply (edit_quantity l1 l2 old).
      - apply edit_append. by apply absent_Forall, findIndex_None. }
    destruct (slotOf _ _); [|by left|]; right; by eexists.
  - rewrite PUT_eq.
    destruct (req_json req) as [b|]; [|by left].
    destruct (UpdateCartItemSchema b) as [[p q]|]; [|by left].
    destruct (carts !! userIdOf req) as [cart|]; [|left; by case_bool_decide].
    destruct (findIndex _ cart) as [i|] eqn:Hfind; [|by left].
    destruct (findIndex_split _ _ _ Hfind) as (l1 & old & l2 & -> & <-).
    right. eexists. split; [done|]. simpl. destruct (num_eq q 0).
    + rewrite delete_middle. constructor.
    + rewrite alter_middle. constructor.
  - rewrite DELETE_eq.
    destruct (DeleteCartItemSchema _) as [itemId|]; [|by left].
    destruct (carts !! userIdOf req) as [cart|]; [|left; by case_bool_decide].
    destruct (findIndex _ cart) as [i|] eqn:Hfind; [|by left].
    destruct (findIndex_split _ _ _ Hfind) as (l1 & old & l2 & -> & <-).
    right. eexists. split; [done|]. simpl. rewrite delete_middle. constructor.
Qed.

Lemma handle_failed (m : Method) (req : Request) (carts : store) :
  status (handle m req carts).1 ≠ 200 → (handle m req carts).2 = carts.
Proof.
  destruct m; unfold handle.
  - rewrite GET_eq. by destruct (slotOf _ _).
  - rewrite POST_eq. by repeat case_match.
  - rewrite PUT_eq. by repeat case_match.
  - rewrite DELETE_eq. by repeat case_match.
Qed.

Lemma handle_unique (m : Method) (req : Request) (carts : store) :
  store_unique carts → store_unique (handle m req carts).2.
Proof.
  intros Hs. destruct (handle_cart_edit m req carts) as [->|(c & -> & Hedit)]; [done|].
  apply store_unique_insert; [done|].
  apply (cart_unique_edit _ _ Hedit). by apply store_unique_default.
Qed.

Lemma run_unique (reqs : list (Method * Request)) (carts : store) :
  store_unique carts → store_unique (run reqs carts).
Proof.
  revert carts. induction reqs as [|[m req] reqs IH]; intros carts Hs; [done|].
  apply IH. by apply handle_unique.
Qed.

Lemma run_app (reqs1 reqs2 : list (Method * Request)) (carts : store) :
  run (reqs1 ++ reqs2) carts = run reqs2 (run reqs1 carts).
Proof. apply fold_left_app. Qed.

Lemma handle_other (m : Method) (req : Request) (carts : store) (u' : string) :
  u' ≠ userIdOf req → (handle m req carts).2 !! u' = carts !! u'.
Proof.
  intros Hne. destruct (handle_cart_edit m req carts) as [->|(c & -> & _)]; [done|].
  by rewrite lookup_insert_ne.
Qed.

Lemma handle_keeps_carts (m : Method) (req : Request) (carts : store) (u : string) :
  is_Some (carts !! u) → is_Some ((handle m req carts).2 !! u).
Proof.
  intros Hu. destruct (handle_cart_edit m req carts) as [->|(c & -> & _)]; [done|].
  rewrite lookup_insert. by case_decide.
Qed.

(** ** Every stored line item is well formed *)

Lemma store_valid_empty : store_valid ∅.
Proof. intros u cart. by rewrite lookup_empty. Qed.

Lemma store_valid_insert (u : string) (cart : list CartItem) (carts : store) :
  store_valid carts → Forall item_valid cart → store_valid (<[u := cart]> carts).
Proof.
  intros Hs Hc u' cart'. rewrite lookup_insert.
  case_decide; [by intros [= <-] | apply Hs].
Qed.

Lemma store_valid_default (u : string) (carts : store) :
  store_valid carts → Forall item_valid (default [] (carts !! u)).
Proof.
  intros Hs. destruct (carts !! u) as [cart|] eqn:Hu; simpl; [by apply (Hs u)|done].
Qed.

Lemma handle_valid (m : Method) (req : Request) (carts : store) :
  store_valid carts → store_valid (handle m req carts).2.
Proof.
  intros Hs. destruct m; unfold handle.
  - rewrite GET_eq. by destruct (slotOf _ _).
  - rewrite POST_eq.
    destruct (req_json req) as [b|]; [|done].
    destruct (CartItemSchema b) as [item|] eqn:Hv; [|done].
    apply CartItemSchema_valid in Hv.
    assert (Hnew : Forall item_valid
      (let cart := default [] (carts !! userIdOf req) in
       match findIndex (hasProductId (productId item)) cart with
       | Some i => alter (addQuantity (quantity item)) i cart
       | None => cart ++ [item]
       end)).
    { cbv zeta.
      pose proof (store_valid_default (userIdOf req) carts Hs) as Hcart.
      destruct (findIndex _ _).
      - apply Forall_alter; [done|]. by intros old _ [Hp Hpr].
      - apply Forall_app. split; [done|]. by constructor. }
    destruct (slotOf _ _); [|done|]; by apply store_valid_insert.
  - rewrite PUT_eq.
    destruct (req_json req) as [b|]; [|done].
    destruct (UpdateCartItemSchema b) as [[p q]|] eqn:Hv; [|done].
    destruct (carts !! userIdOf req) as [cart|] eqn:Hcart; [|by case_bool_decide].
    destruct (findIndex _ cart); [|done].
    apply store_valid_insert; [done|]. simpl.
    destruct (num_eq q 0) eqn:Hzero.
    + apply Forall_delete. by apply (Hs _ _ Hcart).
    + apply Forall_alter; [by apply (Hs _ _ Hcart)|]. by intros old _ [Hp Hpr].
  - rewrite DELETE_eq.
    destruct (DeleteCartItemSchema _) as [itemId|]; [|done].
    destruct (carts !! userIdOf req) as [cart|] eqn:Hcart; [|by case_bool_decide].
    destruct (findIndex _ cart); [|done].
    apply store_valid_insert; [done|]. apply Forall_delete. by apply (Hs _ _ Hcart).
Qed.

Lemma run_valid (reqs : list (Method * Request)) (carts : store) :
  store_valid carts → store_valid (run reqs carts).
Proof.
  revert carts. induction reqs as [|[m req] reqs IH]; intros carts Hs; [done|].
  apply IH. by apply handle_valid.
Qed.

(** ** A handler looks at the cart of its user only *)

Lemma handle_own_cart (m : Method) (req : Request) (carts carts' : store) :
  carts !! userIdOf req = carts' !! userIdOf req →
  (handle m req carts).1 = (handle m req carts').1 ∧
  (((handle m req carts).2 = carts ∧ (handle m req carts').2 = carts') ∨
   ∃ c, (handle m req carts).2 = <[userIdOf req := c]> carts ∧
        (handle m req carts').2 = <[userIdOf req := c]> carts').
Proof.
  intros Hsame.
  assert (Hslot : slotOf carts (userIdOf req) = slotOf carts' (userIdOf req))
    by (unfold slotOf; by rewrite Hsame).
  destruct m; unfold handle.
  - rewrite !GET_eq, Hslot, Hsame. destruct (slotOf carts' _); (split; [done | by left]).
  - rewrite !POST_eq, Hslot, Hsame.
    destruct (req_json req) as [b|]; [|split; [done | by left]].
    destruct (CartItemSchema b); [|split; [done | by left]].
    destruct (slotOf carts' _); [|split; [done | by left]|];
      (split; [done|]; right; by eexists).
  - rewrite !PUT_eq, Hsame.
    destruct (req_json req) as [b|]; [|split; [done | by left]].
    destruct (UpdateCartItemSchema b); [|split; [done | by left]].
    destruct (carts' !! userIdOf req) as [cart|];
      [|case_bool_decide; (split; [done | by left])].
    destruct (findIndex _ cart); [|split; [done | by left]].
    split; [done|]. right. by eexists.
  - rewrite !DELETE_eq, Hsame.
    destruct (DeleteCartItemSchema _); [|split; [done | by left]].
    destruct (carts' !! userIdOf req) as [cart|];
      [|case_bool_decide; (split; [done | by left])].
    destruct (findIndex _ cart); [|split; [done | by left]].
    split; [done|]. right. by eexists.
Qed.

(** ** Totals *)

Lemma totalPriceOf_push (cart : list CartItem) (item : CartItem) :
  totalPriceOf (cart ++ [item])
    = (totalPriceOf cart + price item * quantity item)%float.
Proof. unfold totalPriceOf. by rewrite fold_left_app. Qed.

Lemma totalPriceOf_sumInOrder (cart : list CartItem) :
  sumInOrder cart (totalPriceOf cart).
Proof.
  induction cart as [|item cart IH] using rev_ind; [constructor|].
  rewrite totalPriceOf_push. by constructor.
Qed.

Lemma sumInOrder_unique (cart : list CartItem) (total : number) :
  sumInOrder cart total → total = totalPriceOf cart.
Proof.
  induction 1 as [|cart item total _ IH]; [done|].
  by rewrite totalPriceOf_push, IH.
Qed.

(** ** One line item per product *)

(** C2. Starting from the empty store, after any sequence of requests no
    cart holds two line items with the same [productId]; and every handler,
    the three mutating ones in particular, preserves this invariant of the
    store. *)
Theorem at_most_one_line_item_per_product :
  (∀ reqs u cart, run reqs ∅ !! u = Some cart → NoDup (productId <$> cart)) ∧
  (∀ m req carts, store_unique carts → store_unique (handle m req carts).2).
Proof.
  split.
  - intros reqs. apply run_unique, store_unique_empty.
  - apply handle_unique.
Qed.

(** ** Adding to a cart *)

(** C1, as amended.  In a store where the cart of the user holds no line
    item for product [p] (the user may have no cart at all), a successful
    add of [p] appends the line item of the request to the end of the cart,
    and a second successful add of [p] for the same user leaves exactly one
    line item for [p], whose price is that of the first add and whose
    quantity is the sum of the two quantities as the addition of doubles
    gives it. *)
Theorem add_twice_fresh_product
    (carts s1 s2 : store) (req1 req2 : Request) (msg1 msg2 : string)
    (p : string) (q1 pr1 q2 pr2 : number) :
  let u := userIdOf req1 in
  let cart := default [] (carts !! u) in
  userIdOf req2 = u →
  p ∉ productId <$> cart →
  POST req1 carts = (ok (ItemAdded msg1 (mkItem p q1 pr1)), s1) →
  POST req2 s1 = (ok (ItemAdded msg2 (mkItem p q2 pr2)), s2) →
  s1 !! u = Some (cart ++ [mkItem p q1 pr1]) ∧
  s2 !! u = Some (cart ++ [mkItem p (q1 + q2)%float pr1]) ∧
  itemsOf p (cart ++ [mkItem p (q1 + q2)%float pr1]) = [mkItem p (q1 + q2)%float pr1].
Proof.
  intros u cart Hu Habsent H1 H2.
  destruct (POST_ok_inv _ _ _ _ _ H1) as (b1 & Hb1 & Hv1 & Hown1).
  destruct (POST_ok_inv _ _ _ _ _ H2) as (b2 & Hb2 & Hv2 & _).
  assert (Hs1 : s1 = <[u := cart ++ [mkItem p q1 pr1]]> carts).
  { pose proof (POST_absent req1 carts b1 _ Hb1 Hv1 Hown1 Habsent) as E.
    by rewrite H1 in E. }
  assert (Hs2 : s2 = <[u := cart ++ [mkItem p (q1 + q2)%float pr1]]> s1).
  { assert (Hcart : s1 !! userIdOf req2 = Some (cart ++ mkItem p q1 pr1 :: []))
      by (rewrite Hu, Hs1; apply lookup_insert_eq).
    pose proof (POST_present req2 s1 b2 _ _ _ _ Hb2 Hv2 Hcart eq_refl Habsent) as E.
    rewrite H2, Hu in E. exact E. }
  split_and!.
  - rewrite Hs1. apply lookup_insert_eq.
  - rewrite Hs2. apply lookup_insert_eq.
  - unfold itemsOf. rewrite filter_app.
    fold (itemsOf p cart). rewrite itemsOf_absent by done.
    by rewrite filter_cons_True.
Qed.

(** ** Updating and removing a line item *)

(** C4. In a store reached from the empty one, where the cart of the user
    holds a line item for product [p], a valid update of [p] succeeds; with
    quantity 0 it removes that line item, so that the cart, and a listing
    that follows, hold no line item for [p]; with a quantity above 0 it sets
    the quantity of that line item to the given value and leaves its price,
    the other line items and the other carts as they were. *)
Theorem update_removes_or_sets_quantity
    (reqs : list (Method * Request)) (req : Request) (b : json)
    (p : string) (q : number) (cart : list CartItem) :
  let carts := run reqs ∅ in
  let u := userIdOf req in
  carts !! u = Some cart →
  p ∈ productId <$> cart →
  req_json req = Some b →
  UpdateCartItemSchema b = Some (mkUpdate p q) →
  ∃ l1 item l2,
    cart = l1 ++ item :: l2 ∧ productId item = p ∧
    status (PUT req carts).1 = 200 ∧
    ((q =? 0)%float = true →
       (PUT req carts).2 = <[u := l1 ++ l2]> carts ∧
       (p ∉ productId <$> (l1 ++ l2)) ∧
       ∀ req', userIdOf req' = u →
         (GET req' (PUT req carts).2).1 =
           ok (CartListing (l1 ++ l2) (length (l1 ++ l2)) (totalPriceOf (l1 ++ l2)))) ∧
    ((0 <? q)%float = true →
       (PUT req carts).2 = <[u := l1 ++ mkItem p q (price item) :: l2]> carts).
Proof.
  intros carts u Hcart Hin Hb Hv.
  assert (Hunique : cart_unique cart).
  { by apply (run_unique reqs ∅ store_unique_empty u). }
  destruct (PUT_present carts req b p q cart Hcart Hunique Hin Hb Hv)
    as (l1 & item & l2 & -> & Hp & Hgone & HPUT).
  exists l1, item, l2. rewrite HPUT. cbn [fst snd]. split_and!; [done..| |].
  - intros Hq. change (num_eq q 0 = true) in Hq. rewrite Hq. split_and!; [done..|].
    intros req' Hu. rewrite (GET_lookup req' _ (l1 ++ l2)); [done|].
    rewrite Hu. apply lookup_insert_eq.
  - intros Hq. rewrite (num_eq_positive _ Hq).
    unfold setQuantity. by rewrite Hp.
Qed.

(** C5, where the code departs from it.  A valid update, and a valid
    remove, answers 404 exactly when the user has no cart in the store or
    the cart holds no line item whose [productId] is the one given, provided
    the user identifier does not name a property that [carts] inherits; for
    a user identifier that does, and has no cart, the answer is 500.  In
    both cases the store is left as it was. *)
Theorem not_found_unless_userId_is_inherited (carts : store) (req : Request) :
  let u := userIdOf req in
  let missing (p : string) :=
    carts !! u = None ∨ ∃ cart, carts !! u = Some cart ∧ p ∉ productId <$> cart in
  (∀ b p q, req_json req = Some b →
     UpdateCartItemSchema b = Some (mkUpdate p q) →
     (status (PUT req carts).1 = 404 ↔ missing p ∧ ¬ namesInherited carts u) ∧
     (namesInherited carts u →
        missing p ∧ PUT req carts = (failure 500 "Failed to update cart item", carts)) ∧
     (status (PUT req carts).1 = 404 → (PUT req carts).2 = carts)) ∧
  (∀ itemId, DeleteCartItemSchema (param_itemId req) = Some itemId →
     (status (DELETE req carts).1 = 404 ↔ missing itemId ∧ ¬ namesInherited carts u) ∧
     (namesInherited carts u →
        missing itemId ∧
        DELETE req carts = (failure 500 "Failed to remove item from cart", carts)) ∧
     (status (DELETE req carts).1 = 404 → (DELETE req carts).2 = carts)).
Proof.
  intros u missing.
  assert (Hcases : ∀ p (found : list CartItem → nat → Response * store)
                     (e : string),
    (∀ cart i, status (found cart i).1 = 200) →
    let r := match carts !! u with
             | None =>
               if bool_decide (u ∈ objectPrototypeKeys)
               then (failure 500 e, carts)
               else (failure 404 "Cart not found", carts)
             | Some cart =>
               match findIndex (hasProductId p) cart with
               | None => (failure 404 "Item not found in cart", carts)
               | Some i => found cart i
               end
             end in
    (status r.1 = 404 ↔ missing p ∧ ¬ namesInherited carts u) ∧
    (namesInherited carts u → missing p ∧ r = (failure 500 e, carts)) ∧
    (status r.1 = 404 → r.2 = carts)).
  { intros p found e Hfound. unfold missing, namesInherited.
    destruct (carts !! u) as [cart|] eqn:Hcart; simpl.
    - destruct (findIndex (hasProductId p) cart) as [i|] eqn:Hfind; simpl.
      + rewrite Hfound. split_and!; [split| |]; try discriminate.
        * intros [[|(cart' & [= <-] & Habsent)] _]; [done|].
          apply absent_Forall, findIndex_None in Habsent. congruence.
        * by intros [? _].
      + apply findIndex_None, absent_Forall in Hfind.
        split_and!; [split| |]; try done.
        * intros _. split; [right; by exists cart | by intros [? _]].
        * by intros [? _].
    - case_bool_decide; simpl.
      + split_and!; [split| |]; try done.
        * by intros [_ []].
        * intros _. split; [by left | done].
      + split_and!; [split| |]; try done.
        * intros _. split; [by left | by intros [_ ?]].
        * by intros [_ ?]. }
  split.
  - intros b p q Hb Hv. rewrite (PUT_valid _ _ _ _ _ Hb Hv).
    by apply (Hcases p (λ cart i,
      (ok (ItemUpdated "Cart item updated successfully" (mkUpdate p q)),
       <[u := if num_eq q 0 then delete i cart
              else alter (setQuantity q) i cart]> carts))).
  - intros itemId Hv. rewrite (DELETE_valid _ _ _ Hv).
    by apply (Hcases itemId (λ cart i,
      (ok (ItemRemoved "Item removed from cart successfully" itemId),
       <[u := delete i cart]> carts))).
Qed.

(** ** Listing a cart *)

(** C6, as amended.  For a user identifier that does not name a property
    [carts] inherits without holding it, a listing answers 200 with the line
    items of the user (none when the user has no cart), their number as
    [totalItems], and as [totalPrice] the sum over them, in their order, of
    price times quantity, each product and each partial sum being a double;
    for a cart of two line items of price 10, quantity 2 and price 5,
    quantity 1 it gives [totalItems] 2 and [totalPrice] 25. *)
Theorem list_returns_items_and_totals (carts : store) (req : Request) :
  let items := default [] (carts !! userIdOf req) in
  ¬ namesInherited carts (userIdOf req) →
  status (GET req carts).1 = 200 ∧
  (∃ totalPrice,
     body (GET req carts).1 = CartListing items (length items) totalPrice ∧
     sumInOrder items totalPrice ∧
     ∀ total, sumInOrder items total → total = totalPrice) ∧
  (carts !! userIdOf req = None → body (GET req carts).1 = CartListing [] 0 0) ∧
  (∀ p1 p2, carts !! userIdOf req = Some [mkItem p1 2 10; mkItem p2 1 5] →
     body (GET req carts).1 = CartListing [mkItem p1 2 10; mkItem p2 1 5] 2 25).
Proof.
  intros items Hown.
  assert (HGET : GET req carts
    = (ok (CartListing items (length items) (totalPriceOf items)), carts)).
  { rewrite GET_eq. destruct (slotOf carts (userIdOf req)) eqn:Hslot; [done| |done].
    by apply slotOf_inherited in Hslot. }
  rewrite HGET. unfold items. split_and!.
  - done.
  - eexists. split_and!; [done | apply totalPriceOf_sumInOrder | apply sumInOrder_unique].
  - by intros ->.
  - by intros p1 p2 ->.
Qed.

(** ** Validation *)

Lemma addBody_zero_rejected (p : string) (pr : number) :
  CartItemSchema (addBody p 0 pr) = None.
Proof. by destruct zod, p. Qed.

Lemma updateBody_negative_rejected (p : string) :
  UpdateCartItemSchema (updateBody p (-1)) = None.
Proof. by destruct zod, p. Qed.

(** C7. An add whose [productId] is not a non-empty string, or whose
    [quantity] is not an integer of at least 1, or whose [price] is not a
    number of at least 0, is answered 400 and leaves the store as it was;
    so is an update whose [productId] is not a non-empty string or whose
    [quantity] is not an integer of at least 0.  In particular an add with
    quantity 0 and an update with quantity -1 are answered 400. *)
Theorem invalid_input_rejected (carts : store) :
  (∀ req b, req_json req = Some b →
     ¬ isNonEmptyString (getField b "productId") ∨
     ¬ isIntegerAtLeast 1 (getField b "quantity") ∨
     ¬ isNumberAtLeast 0 (getField b "price") →
     POST req carts = (failure 400 "Invalid input", carts)) ∧
  (∀ req b, req_json req = Some b →
     ¬ isNonEmptyString (getField b "productId") ∨
     ¬ isIntegerAtLeast 0 (getField b "quantity") →
     PUT req carts = (failure 400 "Invalid input", carts)) ∧
  (∀ u p pr,
     POST (addRequest u p 0 pr) carts = (failure 400 "Invalid input", carts)) ∧
  (∀ u p,
     PUT (updateRequest u p (-1)) carts = (failure 400 "Invalid input", carts)).
Proof.
  split_and!.
  - intros req b Hb Hbad.
    assert (Hv : CartItemSchema b = None).
    { apply eq_None_not_Some. intros Hsome%CartItemSchema_value. tauto. }
    rewrite POST_eq. by rewrite Hb, Hv.
  - intros req b Hb Hbad.
    assert (Hv : UpdateCartItemSchema b = None).
    { apply eq_None_not_Some. intros Hsome%UpdateCartItemSchema_value. tauto. }
    rewrite PUT_eq. by rewrite Hb, Hv.
  - intros u p pr. rewrite POST_eq. cbn [req_json addRequest].
    by rewrite addBody_zero_rejected.
  - intros u p. rewrite PUT_eq. cbn [req_json updateRequest].
    by rewrite updateBody_negative_rejected.
Qed.

(** ** The user of a request *)

(** C8. On each of the four endpoints a request without a [userId] query
    parameter is served exactly as the same request with [userId] set to
    "default-user": same response, same store afterwards; the cart it reads
    and writes is that of "default-user", for every such request. *)
Theorem absent_userId_is_default_user (m : Method) (req : Request) (carts : store) :
  param_userId req = None →
  userIdOf req = "default-user" ∧
  handle m req carts = handle m (withUserId (Some "default-user") req) carts.
Proof.
  destruct req as [u i b]. simpl. intros ->. split; [done|].
  by destruct m.
Qed.

(** C9. A request touches no cart but that of its user: the cart of every
    other user identifier is the same before and after, whatever the
    endpoint and whether the request succeeds or fails. *)
Theorem other_carts_untouched
    (m : Method) (req : Request) (carts : store) (u' : string) :
  u' ≠ userIdOf req → (handle m req carts).2 !! u' = carts !! u'.
Proof. apply handle_other. Qed.

(** C10. A listing leaves the whole store as it was; in particular it
    creates no cart for a user who has none.  Of the four handlers only the
    add creates a cart. *)
Theorem list_leaves_store_unchanged (req : Request) (carts : store) :
  (GET req carts).2 = carts ∧
  (carts !! userIdOf req = None → (GET req carts).2 !! userIdOf req = None) ∧
  (∀ m u, carts !! u = None → is_Some ((handle m req carts).2 !! u) → m = mPOST).
Proof.
  assert (HGET : (GET req carts).2 = carts).
  { rewrite GET_eq. by destruct (slotOf _ _). }
  split_and!; [done|by rewrite HGET|].
  intros m u Hnone. destruct m; unfold handle.
  - rewrite HGET, Hnone. by intros [? [=]].
  - done.
  - rewrite PUT_eq. repeat case_match; simpl; try (by rewrite Hnone; intros [? [=]]);
      destruct (decide (userIdOf req = u)) as [<-|Hne]; try congruence;
      rewrite lookup_insert_ne, Hnone by done; by intros [? [=]].
  - rewrite DELETE_eq. repeat case_match; simpl; try (by rewrite Hnone; intros [? [=]]);
      destruct (decide (userIdOf req = u)) as [<-|Hne]; try congruence;
      rewrite lookup_insert_ne, Hnone by done; by intros [? [=]].
Qed.

(** * Further properties of the handlers *)

(** ** Status codes and failures *)

(** X1. A remove is answered 400 exactly when its [itemId] query parameter
    is missing or empty, and then the response is the "Invalid input" error
    and the store is left as it was. *)
Theorem remove_rejected_iff_itemId_missing (req : Request) (carts : store) :
  (status (DELETE req carts).1 = 400 ↔
     param_itemId req = None ∨ param_itemId req = Some "") ∧
  (status (DELETE req carts).1 = 400 →
     DELETE req carts = (failure 400 "Invalid input", carts)).
Proof.
  rewrite <- DeleteCartItemSchema_spec, DELETE_eq.
  destruct (DeleteCartItemSchema (param_itemId req)) as [itemId|]; [|done].
  destruct (carts !! userIdOf req) as [cart|];
    [|case_bool_decide; by split; [split|]].
  destruct (findIndex (hasProductId itemId) cart); by split; [split|].
Qed.

(** X2. A request that is not answered 200 leaves the whole store as it
    was, on each of the four endpoints. *)
Theorem failed_request_leaves_store (m : Method) (req : Request) (carts : store) :
  status (handle m req carts).1 ≠ 200 → (handle m req carts).2 = carts.
Proof. apply handle_failed. Qed.

(** X3. Every response has status 200, 400, 404 or 500.  A listing is
    answered 200 or 500, an add is never answered 404, and a request is
    answered 500 only when its user identifier names a property that
    [carts] inherits without holding it, or when it is an add or an update
    whose body is not JSON. *)
Theorem status_profile (m : Method) (req : Request) (carts : store) :
  let code := status (handle m req carts).1 in
  (code = 200 ∨ code = 400 ∨ code = 404 ∨ code = 500) ∧
  (m = mGET → code = 200 ∨ code = 500) ∧
  (m = mPOST → code ≠ 404) ∧
  (code = 500 →
     namesInherited carts (userIdOf req) ∨
     ((m = mPOST ∨ m = mPUT) ∧ req_json req = None)).
Proof.
  assert (Hinh : bool_decide (userIdOf req ∈ objectPrototypeKeys) = true →
                 carts !! userIdOf req = None → namesInherited carts (userIdOf req)).
  { intros Hin%bool_decide_eq_true Hnone. by split. }
  destruct m; unfold handle.
  - rewrite GET_eq. destruct (slotOf carts (userIdOf req)) eqn:Hslot; simpl;
      split_and!; try done; auto 6.
    intros _. left. by apply slotOf_inherited.
  - rewrite POST_eq. destruct (req_json req) as [b|].
    + destruct (CartItemSchema b); [|simpl; split_and!; try done; auto 6].
      destruct (slotOf carts (userIdOf req)) eqn:Hslot; simpl;
        split_and!; try done; auto 6.
      intros _. left. by apply slotOf_inherited.
    + simpl. split_and!; try done; auto 6.
  - rewrite PUT_eq. destruct (req_json req) as [b|].
    + destruct (UpdateCartItemSchema b) as [v|];
        [|simpl; split_and!; try done; auto 6].
      destruct (carts !! userIdOf req) as [cart|] eqn:Hcart.
      * destruct (findIndex (hasProductId (upd_productId v)) cart);
          simpl; split_and!; try done; auto 6.
      * destruct (bool_decide _) eqn:Hkey; simpl; split_and!; try done; auto 6.
    + simpl. split_and!; try done; auto 6.
  - rewrite DELETE_eq.
    destruct (DeleteCartItemSchema _) as [v|];
      [|simpl; split_and!; try done; auto 6].
    destruct (carts !! userIdOf req) as [cart|] eqn:Hcart.
    + destruct (findIndex (hasProductId v) cart);
        simpl; split_and!; try done; auto 6.
    + destruct (bool_decide _) eqn:Hkey; simpl; split_and!; try done; auto 6.
Qed.

(** ** Validation, both ways *)

(** X4. For a body that is JSON and a user identifier that does not name a
    property [carts] inherits without holding it, an add is answered 200
    exactly when its [productId] is a non-empty string, its [quantity] an
    integer of at least 1 and its [price] a number of at least 0, with the
    bounds of the validation library in use (under version 4 the integer is
    a safe integer and the number is finite), and 400 otherwise; the item of
    a 200 response carries exactly the three fields of the body.  Likewise
    an update is answered 400 exactly when its [productId] is not a
    non-empty string or its [quantity] not such an integer of at least 0. *)
Theorem add_accepted_iff_valid (req : Request) (carts : store) (b : json) :
  req_json req = Some b →
  ¬ namesInherited carts (userIdOf req) →
  let valid :=
    isNonEmptyString (getField b "productId") ∧
    acceptedInteger 1 (getField b "quantity") ∧
    acceptedNumber 0 (getField b "price") in
  (status (POST req carts).1 = 200 ↔ valid) ∧
  (status (POST req carts).1 = 400 ↔ ¬ valid) ∧
  (∀ msg item, body (POST req carts).1 = ItemAdded msg item →
     getField b "productId" = Some (JString (productId item)) ∧
     getField b "quantity" = Some (JNumber (quantity item)) ∧
     getField b "price" = Some (JNumber (price item))) ∧
  (status (PUT req carts).1 = 400 ↔
     ¬ (isNonEmptyString (getField b "productId") ∧
        acceptedInteger 0 (getField b "quantity"))).
Proof.
  intros Hb Hown valid. unfold valid.
  rewrite <- CartItemSchema_spec, <- UpdateCartItemSchema_spec, PUT_eq, Hb.
  assert (HPOST : POST req carts =
    match CartItemSchema b with
    | None => (failure 400 "Invalid input", carts)
    | Some item =>
      (ok (ItemAdded "Item added to cart successfully" item),
       (POST req carts).2)
    end).
  { destruct (CartItemSchema b) as [item|] eqn:Hv.
    - by rewrite (POST_valid _ _ _ _ Hb Hv Hown).
    - rewrite POST_eq. by rewrite Hb, Hv. }
  rewrite HPOST. split_and!.
  - destruct (CartItemSchema b) as [item|] eqn:Hv; simpl.
    + split; [by eexists | done].
    + split; [done | by intros [? [=]]].
  - destruct (CartItemSchema b) as [item|] eqn:Hv; simpl.
    + split; [done | intros []; by eexists].
    + split; [by intros _ [? [=]] | done].
  - intros msg item. destruct (CartItemSchema b) as [item'|] eqn:Hv; simpl; [|done].
    intros [= _ <-]. by apply CartItemSchema_fields.
  - destruct (UpdateCartItemSchema b) as [v|] eqn:Hv.
    + destruct (carts !! userIdOf req) as [cart|];
        [destruct (findIndex _ cart)|case_bool_decide]; simpl;
        (split; [done | intros []; by eexists]).
    + simpl. split; [by intros _ [? [=]] | done].
Qed.

(** ** Every stored line item is well formed *)

(** X5. After any sequence of requests from the empty store, every line
    item of every cart has a non-empty [productId] and a [price] that is
    positive infinity or a number of at least 0; every handler keeps this
    invariant of the store. *)
Theorem stored_items_are_valid :
  (∀ reqs u cart item,
     run reqs ∅ !! u = Some cart → item ∈ cart →
     productId item ≠ "" ∧
     (price item = infinity ∨ ∃ v, valueOf (price item) = Some v ∧ (0 <= v)%Q)) ∧
  (∀ m req carts, store_valid carts → store_valid (handle m req carts).2).
Proof.
  split; [|apply handle_valid].
  intros reqs u cart item Hcart Hin.
  assert (Hvalid : item_valid item).
  { eapply Forall_forall; [|done].
    by apply (run_valid reqs ∅ store_valid_empty u). }
  destruct Hvalid as [Hp Hpr]. split; [done|]. by apply num_ge_zero_spec.
Qed.

(** ** The shape of a store update *)

(** X6. A request either leaves the store as it was or replaces the cart
    of its user, and only that cart, by the result of one edit: the
    quantity of one line item is set, one line item is removed, or a line
    item for a product the cart does not hold yet is put at its end. *)
Theorem request_makes_one_edit (m : Method) (req : Request) (carts : store) :
  (handle m req carts).2 = carts ∨
  ∃ cart', (handle m req carts).2 = <[userIdOf req := cart']> carts ∧
           cart_edit (default [] (carts !! userIdOf req)) cart'.
Proof. apply handle_cart_edit. Qed.

Lemma priced_edit (cart cart' : list CartItem) :
  cart_edit cart cart' →
  priced cart' = priced cart ∨
  (∃ l1 x l2, priced cart = l1 ++ x :: l2 ∧ priced cart' = l1 ++ l2) ∨
  (∃ new, (productId new ∉ productId <$> cart) ∧
          priced cart' = priced cart ++ [(productId new, price new)]).
Proof.
  unfold priced. intros [l1 l2 old q|l1 l2 old|c new Hnew].
  - left. by rewrite !fmap_app, !fmap_cons.
  - right. left. exists (priced l1), (productId old, price old), (priced l2).
    unfold priced. by rewrite !fmap_app, fmap_cons.
  - right. right. exists new. split; [done|]. by rewrite fmap_app.
Qed.

(** X7. No request changes the price, the product or the position of a
    line item that stays in the cart: the sequence of (product, price)
    pairs of the cart of the user after a request is the one before it,
    or that one with one pair taken out, or that one followed by the pair
    of a product the cart did not hold. *)
Theorem prices_and_order_are_kept
    (m : Method) (req : Request) (carts : store) (cart' : list CartItem) :
  let cart := default [] (carts !! userIdOf req) in
  (handle m req carts).2 !! userIdOf req = Some cart' →
  priced cart' = priced cart ∨
  (∃ l1 x l2, priced cart = l1 ++ x :: l2 ∧ priced cart' = l1 ++ l2) ∨
  (∃ new, (productId new ∉ productId <$> cart) ∧
          priced cart' = priced cart ++ [(productId new, price new)]).
Proof.
  intros cart. destruct (handle_cart_edit m req carts) as [->|(c & -> & Hedit)].
  - intros Hcart. left. unfold cart. by rewrite Hcart.
  - rewrite lookup_insert_eq. intros [= <-]. by apply priced_edit.
Qed.

(** ** Carts stay, line items go *)

(** X8. No request removes a cart from the store: a user who has a cart
    has one after any further sequence of requests, even when every line
    item has been removed from it. *)
Theorem carts_are_never_destroyed
    (reqs : list (Method * Request)) (carts : store) (u : string) :
  is_Some (carts !! u) → is_Some (run reqs carts !! u).
Proof.
  revert carts. induction reqs as [|[m req] reqs IH]; intros carts Hu; [done|].
  apply IH. by apply handle_keeps_carts.
Qed.

(** X9. In a store reached from the empty one, removing a product that the
    cart of the user holds is answered 200 with the identifier given; it
    takes that line item out, leaves the other line items in their order
    and the other carts as they were, and the cart then holds no line item
    for the product, so that the same remove sent again is answered 404
    with "Item not found in cart". *)
Theorem remove_takes_line_item_out
    (reqs : list (Method * Request)) (req : Request) (p : string)
    (cart : list CartItem) :
  let carts := run reqs ∅ in
  let u := userIdOf req in
  carts !! u = Some cart →
  p ∈ productId <$> cart →
  param_itemId req = Some p →
  ∃ l1 item l2,
    cart = l1 ++ item :: l2 ∧ productId item = p ∧
    DELETE req carts =
      (ok (ItemRemoved "Item removed from cart successfully" p),
       <[u := l1 ++ l2]> carts) ∧
    (p ∉ productId <$> (l1 ++ l2)) ∧
    DELETE req (DELETE req carts).2 =
      (failure 404 "Item not found in cart", (DELETE req carts).2).
Proof.
  intros carts u Hcart Hin Hparam.
  assert (Hunique : cart_unique cart)
    by apply (run_unique reqs ∅ store_unique_empty u _ Hcart).
  assert (Hp : p ≠ "").
  { apply list_elem_of_fmap in Hin as (item & -> & Hitem).
    assert (Hvalid : Forall item_valid cart).
    { by apply (run_valid reqs ∅ store_valid_empty u). }
    rewrite Forall_forall in Hvalid. by destruct (Hvalid _ Hitem). }
  destruct (DELETE_present carts req p cart Hcart Hin Hparam Hp)
    as (l1 & item & l2 & -> & Hitem & Hl1 & HDEL).
  assert (Hgone : p ∉ productId <$> (l1 ++ l2))
    by (rewrite <- Hitem; by apply unique_middle).
  exists l1, item, l2. rewrite HDEL. split_and!; [done..|]. cbn [snd].
  assert (Hv : DeleteCartItemSchema (param_itemId req) = Some p).
  { rewrite Hparam. by apply DeleteCartItemSchema_Some. }
  rewrite (DELETE_valid _ _ _ Hv). fold u. rewrite lookup_insert_eq.
  apply absent_Forall, findIndex_None in Hgone. by rewrite Hgone.
Qed.

(** ** How update, remove and add compose *)

(** X10. An update with quantity 0 and a remove of the same product for the
    same user leave the same store and have the same status. *)
Theorem update_to_zero_is_remove
    (carts : store) (reqU reqD : Request) (b : json) (p : string) (q : number) :
  userIdOf reqD = userIdOf reqU →
  req_json reqU = Some b → UpdateCartItemSchema b = Some (mkUpdate p q) →
  (q =? 0)%float = true →
  param_itemId reqD = Some p →
  (PUT reqU carts).2 = (DELETE reqD carts).2 ∧
  status (PUT reqU carts).1 = status (DELETE reqD carts).1.
Proof.
  intros Hu Hb Hv Hq Hparam. change (num_eq q 0 = true) in Hq.
  pose proof (UpdateCartItemSchema_valid _ _ _ Hv) as Hp.
  assert (Hd : DeleteCartItemSchema (param_itemId reqD) = Some p).
  { rewrite Hparam. by apply DeleteCartItemSchema_Some. }
  rewrite (PUT_valid _ _ _ _ _ Hb Hv), (DELETE_valid _ _ _ Hd), Hu, Hq.
  destruct (carts !! userIdOf reqU) as [cart|]; [|by case_bool_decide].
  by destruct (findIndex _ cart).
Qed.

(** X11. Adding a product that the cart of the user does not hold and then
    removing it gives the cart its line items back, for a user identifier
    that does not name a property [carts] inherits without holding it: the
    remove is answered 200 and the cart is the one before the add (the
    empty cart for a user who had none); for a user who had a cart the whole
    store is as before. *)
Theorem add_then_remove_restores_cart
    (carts : store) (reqA reqD : Request) (b : json) (item : CartItem) :
  let u := userIdOf reqA in
  let cart := default [] (carts !! u) in
  userIdOf reqD = u →
  ¬ namesInherited carts u →
  req_json reqA = Some b → CartItemSchema b = Some item →
  productId item ∉ productId <$> cart →
  param_itemId reqD = Some (productId item) →
  status (DELETE reqD (POST reqA carts).2).1 = 200 ∧
  (DELETE reqD (POST reqA carts).2).2 = <[u := cart]> carts ∧
  (is_Some (carts !! u) → (DELETE reqD (POST reqA carts).2).2 = carts).
Proof.
  intros u cart Hu Hown Hb Hv Habsent Hparam.
  destruct (CartItemSchema_valid _ _ Hv) as (Hp & _).
  assert (Hd : DeleteCartItemSchema (param_itemId reqD) = Some (productId item)).
  { rewrite Hparam. by apply DeleteCartItemSchema_Some. }
  rewrite (POST_absent _ _ _ _ Hb Hv Hown Habsent), (DELETE_valid _ _ _ Hd), Hu.
  fold u cart. rewrite lookup_insert_eq.
  rewrite findIndex_middle;
    [|by apply absent_Forall|by apply hasProductId_true].
  rewrite delete_middle, app_nil_r, insert_insert_eq. split_and!; [done..|].
  intros [c Hc]. apply insert_id. unfold cart. by rewrite Hc.
Qed.

(** X12. An update sets the quantity, so of two successive updates of one
    product for one user the first is forgotten when its quantity is above
    0: the response and the store are those of the second update alone. *)
Theorem second_update_overrides_first
    (carts : store) (req1 req2 : Request) (b1 b2 : json)
    (p : string) (q1 q2 : number) :
  userIdOf req2 = userIdOf req1 →
  req_json req1 = Some b1 → UpdateCartItemSchema b1 = Some (mkUpdate p q1) →
  req_json req2 = Some b2 → UpdateCartItemSchema b2 = Some (mkUpdate p q2) →
  (0 <? q1)%float = true →
  PUT req2 (PUT req1 carts).2 = PUT req2 carts.
Proof.
  intros Hu Hb1 Hv1 Hb2 Hv2 Hq1%num_eq_positive.
  destruct (decide (p ∈ productId <$> default [] (carts !! userIdOf req1)))
    as [Hin|Hnin].
  - destruct (carts !! userIdOf req1) as [cart|] eqn:Hcart;
      [|by apply elem_of_nil in Hin].
    simpl in Hin.
    destruct (present_split _ _ Hin) as (l1 & item & l2 & -> & Hitem & Hl1 & _).
    rewrite (PUT_first_match carts req1 b1 p q1 l1 l2 item) by done.
    rewrite Hq1. cbn [snd].
    rewrite (PUT_first_match _ req2 b2 p q2 l1 l2 (setQuantity q1 item));
      [|done..|by rewrite Hu, lookup_insert_eq|done|done].
    rewrite (PUT_first_match carts req2 b2 p q2 l1 l2 item);
      [|done..|by rewrite Hu|done|done].
    by rewrite Hu, insert_insert_eq.
  - by destruct (PUT_missing carts req1 b1 p q1 Hb1 Hv1 Hnin) as [-> _].
Qed.

(** ** Totals and repeated adds *)

(** X13. What an add does to a listing, for a user identifier that does
    not name a property [carts] inherits without holding it.  For a product
    the cart does not hold, the line item of the request is put at the end:
    [totalItems] grows by one and [totalPrice] is the former total plus the
    price of the request times its quantity, in doubles.  For a product the
    cart holds, [totalItems] stays, and the line item keeps its price and
    has the quantity of the request added to its own: the price of the
    request is not used. *)
Theorem add_raises_totals
    (carts : store) (req reqL : Request) (b : json) (item : CartItem) :
  let u := userIdOf req in
  let cart := default [] (carts !! u) in
  userIdOf reqL = u →
  ¬ namesInherited carts u →
  req_json req = Some b → CartItemSchema b = Some item →
  ∃ cart',
    body (GET reqL (POST req carts).2).1
      = CartListing cart' (length cart') (totalPriceOf cart') ∧
    (productId item ∉ productId <$> cart →
       cart' = cart ++ [item] ∧
       length cart' = S (length cart) ∧
       totalPriceOf cart' = (totalPriceOf cart + price item * quantity item)%float) ∧
    (∀ l1 old l2,
       cart = l1 ++ old :: l2 → productId old = productId item →
       productId item ∉ productId <$> l1 →
       length cart' = length cart ∧
       cart' = l1 ++ mkItem (productId old) (quantity old + quantity item)%float
                            (price old) :: l2).
Proof.
  intros u cart Hu Hown Hb Hv.
  rewrite (POST_valid _ _ _ _ Hb Hv Hown). cbn [snd]. cbv zeta. fold u cart.
  exists (match findIndex (hasProductId (productId item)) cart with
          | Some i => alter (addQuantity (quantity item)) i cart
          | None => cart ++ [item]
          end).
  split_and!.
  - erewrite GET_lookup; [done|]. rewrite Hu. apply lookup_insert_eq.
  - intros Habsent%absent_Forall%findIndex_None. rewrite Habsent.
    split_and!; [done| |apply totalPriceOf_push]. rewrite length_app. simpl. lia.
  - intros l1 old l2 Hcart Hold Hl1%absent_Forall. rewrite Hcart.
    rewrite findIndex_middle by (done || by apply hasProductId_true).
    rewrite alter_middle. split; [|done].
    rewrite !length_app. done.
Qed.

Lemma addBody_accepted (p : string) (q pr : number) :
  is_Some (CartItemSchema (addBody p q pr)) →
  CartItemSchema (addBody p q pr) = Some (mkItem p q pr).
Proof.
  intros [[p' q' pr'] Hv]. rewrite Hv.
  destruct (CartItemSchema_fields _ _ Hv) as (Hp & Hq & Hpr).
  simpl in Hp, Hq, Hpr. by injection Hp as <-; injection Hq as <-; injection Hpr as <-.
Qed.

Lemma run_adds_present
    (uo : option string) (p : string) (pr : number) (cart : list CartItem)
    (more : list (number * number)) (q : number) (carts : store) :
  let u := userIdOf (addRequest uo p 0 0) in
  p ∉ productId <$> cart →
  Forall (λ a, is_Some (CartItemSchema (addBody p a.1 a.2))) more →
  carts !! u = Some (cart ++ [mkItem p q pr]) →
  run ((λ a, (mPOST, addRequest uo p a.1 a.2)) <$> more) carts !! u
    = Some (cart ++ [mkItem p (fold_left (λ x y, (x + y)%float) (more.*1) q) pr]).
Proof.
  intros u Habsent Hmore. revert q carts.
  induction Hmore as [|[q' pr'] more Hv%addBody_accepted _ IH]; intros q carts Hcart;
    [done|].
  simpl in *. apply IH.
  rewrite (POST_present (addRequest uo p q' pr') carts (addBody p q' pr')
             (mkItem p q' pr') cart [] (mkItem p q pr));
    [apply lookup_insert_eq|done..].
Qed.

(** X14. Repeated adds of one product accumulate.  For a product the cart
    of the user does not hold, and a user identifier that does not name a
    property [carts] inherits without holding it, after any number of adds
    of it that pass validation the cart holds, at its end, one line item
    for it whose price is that of the first add and whose quantity is the
    quantities added up in the order of the requests, each sum being a
    double. *)
Theorem repeated_adds_accumulate
    (carts : store) (uo : option string) (p : string)
    (q1 pr1 : number) (more : list (number * number)) :
  let u := userIdOf (addRequest uo p q1 pr1) in
  let cart := default [] (carts !! u) in
  ¬ namesInherited carts u →
  p ∉ productId <$> cart →
  Forall (λ a, is_Some (CartItemSchema (addBody p a.1 a.2))) ((q1, pr1) :: more) →
  run ((λ a, (mPOST, addRequest uo p a.1 a.2)) <$> (q1, pr1) :: more) carts !! u
    = Some (cart ++ [mkItem p (fold_left (λ x y, (x + y)%float) (more.*1) q1) pr1]).
Proof.
  intros u cart Hown Habsent [Hv%addBody_accepted Hmore]%Forall_cons.
  rewrite fmap_cons. unfold run. simpl.
  fold (run ((λ a, (mPOST, addRequest uo p a.1 a.2)) <$> more)).
  apply (run_adds_present uo p pr1 cart more q1); [done..|].
  rewrite (POST_absent (addRequest uo p q1 pr1) carts (addBody p q1 pr1)
             (mkItem p q1 pr1));
    [apply lookup_insert_eq|done..].
Qed.

(** ** Requests of different users, and sequences of requests *)

(** X15. Requests of different users do not interfere: served in either
    order they get the same responses, namely those each would get alone,
    and they leave the same store. *)
Theorem requests_of_different_users_commute
    (m1 m2 : Method) (req1 req2 : Request) (carts : store) :
  userIdOf req1 ≠ userIdOf req2 →
  (handle m2 req2 (handle m1 req1 carts).2).1 = (handle m2 req2 carts).1 ∧
  (handle m1 req1 (handle m2 req2 carts).2).1 = (handle m1 req1 carts).1 ∧
  (handle m2 req2 (handle m1 req1 carts).2).2
    = (handle m1 req1 (handle m2 req2 carts).2).2.
Proof.
  intros Hne.
  destruct (handle_own_cart m2 req2 (handle m1 req1 carts).2 carts)
    as [Hr2 Hs2]; [by apply handle_other|].
  destruct (handle_own_cart m1 req1 (handle m2 req2 carts).2 carts)
    as [Hr1 Hs1]; [by apply handle_other|].
  split_and!; [done..|].
  destruct Hs2 as [[-> E2]|(c2 & -> & E2)], Hs1 as [[-> E1]|(c1 & -> & E1)];
    rewrite ?E1, ?E2; try done.
  by apply insert_insert_ne.
Qed.

(** X16. Listings and failed requests do not matter to the store: the
    store after a sequence of requests is the store after its adds, updates
    and removes alone, and a request that is not answered 200 can be left
    out of a sequence anywhere. *)
Theorem only_successful_mutations_matter
    (reqs reqs' : list (Method * Request)) (m : Method) (req : Request)
    (carts : store) :
  run reqs carts = run (mutations reqs) carts ∧
  (status (handle m req (run reqs carts)).1 ≠ 200 →
   run (reqs ++ (m, req) :: reqs') carts = run (reqs ++ reqs') carts).
Proof.
  split.
  - revert carts. induction reqs as [|[m0 req0] reqs IH]; intros carts; [done|].
    unfold mutations. simpl. destruct m0; simpl; try apply IH.
    unfold handle. cbn [fst snd].
    assert ((GET req0 carts).2 = carts) as ->; [|apply IH].
    rewrite GET_eq. by destruct (slotOf _ _).
  - intros Hfail. rewrite !run_app. simpl. f_equal. by apply handle_failed.
Qed.

(** X17. The user of a request is its [userId] query parameter when that
    is a non-empty string, and "default-user" when the parameter is missing
    or empty: an empty [userId] is served exactly as a missing one, on each
    endpoint.  Two requests are for the same cart exactly when their users
    are equal. *)
Theorem empty_userId_is_default_user (m : Method) (req : Request) (carts : store) :
  (∀ u, param_userId req = Some u → u ≠ "" → userIdOf req = u) ∧
  (param_userId req = Some "" →
     userIdOf req = "default-user" ∧
     handle m req carts = handle m (withUserId None req) carts) ∧
  (userIdOf req = "default-user" ↔
     param_userId req = None ∨ param_userId req = Some "" ∨
     param_userId req = Some "default-user").
Proof.
  destruct req as [[u|] i b]; unfold userIdOf; simpl.
  - destruct (String.eqb_spec u "") as [->|Hne]; split_and!.
    + by intros u' [= <-].
    + intros _. split; [done | by destruct m].
    + split; [auto | done].
    + by intros u' [= <-].
    + by intros [= ->].
    + split; [intros ->; auto | by intros [[=]|[[= ->]|[= ->]]]].
  - split_and!; [done..|]. split; [auto | done].
Qed.

(** ** The two 404 answers *)

(** X18. For a valid update and a valid remove, the answer says
    "Cart not found" exactly when the user has no cart in the store and the
    user identifier does not name a property that [carts] inherits, and
    "Item not found in cart" exactly when the user has a cart, possibly
    empty, that holds no line item for the product. *)
Theorem not_found_messages (carts : store) (req : Request) :
  let u := userIdOf req in
  (∀ b p q, req_json req = Some b →
     UpdateCartItemSchema b = Some (mkUpdate p q) →
     (body (PUT req carts).1 = ErrorBody "Cart not found" ↔
        carts !! u = None ∧ u ∉ objectPrototypeKeys) ∧
     (body (PUT req carts).1 = ErrorBody "Item not found in cart" ↔
        ∃ cart, carts !! u = Some cart ∧ p ∉ productId <$> cart)) ∧
  (∀ itemId, DeleteCartItemSchema (param_itemId req) = Some itemId →
     (body (DELETE req carts).1 = ErrorBody "Cart not found" ↔
        carts !! u = None ∧ u ∉ objectPrototypeKeys) ∧
     (body (DELETE req carts).1 = ErrorBody "Item not found in cart" ↔
        ∃ cart, carts !! u = Some cart ∧ itemId ∉ productId <$> cart)).
Proof.
  intros u.
  assert (Hcases : ∀ p (found : list CartItem → nat → Response * store) (e : string),
    e ≠ "Cart not found" → e ≠ "Item not found in cart" →
    (∀ cart i, ∃ b, body (found cart i).1 = b ∧ ∀ e, b ≠ ErrorBody e) →
    let r := match carts !! u with
             | None =>
               if bool_decide (u ∈ objectPrototypeKeys)
               then (failure 500 e, carts)
               else (failure 404 "Cart not found", carts)
             | Some cart =>
               match findIndex (hasProductId p) cart with
               | None => (failure 404 "Item not found in cart", carts)
               | Some i => found cart i
               end
             end in
    (body r.1 = ErrorBody "Cart not found" ↔
       carts !! u = None ∧ u ∉ objectPrototypeKeys) ∧
    (body r.1 = ErrorBody "Item not found in cart" ↔
       ∃ cart, carts !! u = Some cart ∧ p ∉ productId <$> cart)).
  { intros p found e He1 He2 Hfound.
    destruct (carts !! u) as [cart|] eqn:Hcart; simpl.
    - destruct (findIndex (hasProductId p) cart) as [i|] eqn:Hfind; simpl.
      + destruct (Hfound cart i) as (b & -> & Hb). split; split; try done.
        * intros E. by destruct (Hb _ E).
        * by intros [[=] _].
        * intros E. by destruct (Hb _ E).
        * intros (cart' & [= <-] & Habsent).
          apply absent_Forall, findIndex_None in Habsent. congruence.
      + apply findIndex_None, absent_Forall in Hfind.
        split; split; try done.
        * by intros [[=] _].
        * intros _. by exists cart.
    - case_bool_decide; simpl.
      + split; split; try done.
        * intros [= E]. by destruct He1.
        * by intros [_ []].
        * intros [= E]. by destruct He2.
        * by intros (? & [=] & _).
      + split; split; try done. by intros (? & [=] & _). }
  split.
  - intros b p q Hb Hv. rewrite (PUT_valid _ _ _ _ _ Hb Hv).
    apply (Hcases p (λ cart i,
      (ok (ItemUpdated "Cart item updated successfully" (mkUpdate p q)),
       <[u := if num_eq q 0 then delete i cart
              else alter (setQuantity q) i cart]> carts))); [done..|].
    intros cart i. by eexists.
  - intros itemId Hv. rewrite (DELETE_valid _ _ _ Hv).
    apply (Hcases itemId (λ cart i,
      (ok (ItemRemoved "Item removed from cart successfully" itemId),
       <[u := delete i cart]> carts))); [done..|].
    intros cart i. by eexists.
Qed.

(** X19. A body that is JSON but not an object (null, a boolean, a number,
    a string, an array) is answered 400 by add and by update, and the store
    is left as it was. *)
Theorem non_object_body_rejected (req : Request) (carts : store) (b : json) :
  req_json req = Some b →
  (∀ fields, b ≠ JObject fields) →
  POST req carts = (failure 400 "Invalid input", carts) ∧
  PUT req carts = (failure 400 "Invalid input", carts).
Proof.
  intros Hb Hobj. rewrite POST_eq, PUT_eq, Hb.
  destruct b as [| | | | |fields]; try done. by destruct (Hobj fields).
Qed.

(** ** Re-adding, and the size of a cart *)

(** X23. A product that is removed and then added again starts afresh: in
    a store reached from the empty one, removing a product the cart holds
    and adding it again puts a line item with the quantity and the price of
    the new request at the end of the cart, whatever the quantity, the
    price and the position of the line item removed. *)
Theorem remove_then_add_starts_afresh
    (reqs : list (Method * Request)) (reqD reqA : Request) (b : json)
    (item : CartItem) (cart : list CartItem) :
  let carts := run reqs ∅ in
  let u := userIdOf reqD in
  userIdOf reqA = u →
  carts !! u = Some cart →
  productId item ∈ productId <$> cart →
  param_itemId reqD = Some (productId item) →
  req_json reqA = Some b → CartItemSchema b = Some item →
  ∃ l1 old l2,
    cart = l1 ++ old :: l2 ∧ productId old = productId item ∧
    (POST reqA (DELETE reqD carts).2).2 = <[u := (l1 ++ l2) ++ [item]]> carts.
Proof.
  intros carts u Hu Hcart Hin Hparam Hb Hv.
  assert (Hunique : cart_unique cart)
    by apply (run_unique reqs ∅ store_unique_empty u _ Hcart).
  destruct (CartItemSchema_valid _ _ Hv) as (Hp & _).
  destruct (DELETE_present carts reqD _ cart Hcart Hin Hparam Hp)
    as (l1 & old & l2 & -> & Hold & _ & HDEL).
  exists l1, old, l2. split_and!; [done..|]. rewrite HDEL. cbn [snd].
  assert (Hnew : <[u := l1 ++ l2]> carts !! userIdOf reqA = Some (l1 ++ l2))
    by (rewrite Hu; apply lookup_insert_eq).
  rewrite (POST_absent _ _ _ _ Hb Hv); fold u; rewrite ?Hnew.
  - by rewrite Hu, insert_insert_eq.
  - apply namesInherited_own. by eexists.
  - simpl. rewrite <- Hold. by apply unique_middle.
Qed.

(** X24. The number of line items of the cart of the user: a listing
    leaves it, an add leaves it or raises it by one, an update or a remove
    leaves it or lowers it by one. *)
Theorem cart_size_changes_by_at_most_one
    (m : Method) (req : Request) (carts : store) :
  let n := length (default [] (carts !! userIdOf req)) in
  let n' := length (default [] ((handle m req carts).2 !! userIdOf req)) in
  match m with
  | mGET => n' = n
  | mPOST => n' = n ∨ n' = S n
  | mPUT | mDELETE => n' = n ∨ S n' = n
  end.
Proof.
  destruct m; unfold handle.
  - assert ((GET req carts).2 = carts) as ->; [|done].
    rewrite GET_eq. by destruct (slotOf _ _).
  - rewrite POST_eq.
    destruct (req_json req) as [b|]; [|by left].
    destruct (CartItemSchema b) as [item|]; [|by left].
    destruct (slotOf _ _); [|by left|];
      (cbn [snd]; rewrite lookup_insert_eq; cbv zeta;
       destruct (findIndex _ _); simpl;
       [left; apply length_alter | right; rewrite length_app; simpl; lia]).
  - rewrite PUT_eq.
    destruct (req_json req) as [b|]; [|by left].
    destruct (UpdateCartItemSchema b) as [[p q]|]; [|by left].
    destruct (carts !! userIdOf req) as [cart|] eqn:Hcart;
      [|case_bool_decide; cbn [snd]; rewrite Hcart; by left].
    destruct (findIndex _ cart) as [i|] eqn:Hfind;
      [|cbn [snd]; rewrite Hcart; by left].
    destruct (findIndex_split _ _ _ Hfind) as (l1 & old & l2 & -> & <-).
    cbn [snd]. rewrite lookup_insert_eq. simpl. destruct (num_eq q 0).
    + right. rewrite delete_middle, !length_app. simpl. lia.
    + left. apply length_alter.
  - rewrite DELETE_eq.
    destruct (DeleteCartItemSchema _) as [itemId|]; [|by left].
    destruct (carts !! userIdOf req) as [cart|] eqn:Hcart;
      [|case_bool_decide; cbn [snd]; rewrite Hcart; by left].
    destruct (findIndex _ cart) as [i|] eqn:Hfind;
      [|cbn [snd]; rewrite Hcart; by left].
    destruct (findIndex_split _ _ _ Hfind) as (l1 & old & l2 & -> & <-).
    cbn [snd]. rewrite lookup_insert_eq. simpl.
    right. rewrite delete_middle, !length_app. simpl. lia.
Qed.

(** ** User identifiers that name inherited properties *)

Lemma handle_keeps_inherited (m : Method) (req : Request) (carts : store) (u : string) :
  namesInherited carts u → namesInherited (handle m req carts).2 u.
Proof.
  intros [Hnone Hkey]. split; [|done].
  destruct (decide (u = userIdOf req)) as [->|Hne].
  - assert (Hinh : slotOf carts (userIdOf req) = InheritedValue)
      by (by apply slotOf_inherited).
    destruct m; unfold handle.
    + rewrite GET_eq. by rewrite Hinh.
    + by rewrite (proj2 (POST_inherited req carts (conj Hnone Hkey))).
    + rewrite PUT_eq. repeat case_match; simpl; congruence.
    + rewrite DELETE_eq. repeat case_match; simpl; congruence.
  - by rewrite handle_other.
Qed.

(** X25. No cart is ever stored under a name that [carts] inherits: from
    the empty store, after any sequence of requests, such a user identifier
    has no cart; a listing for it is answered 500 and an add, an update and
    a remove for it are answered 400 or 500, the store being left as it
    was. *)
Theorem inherited_names_hold_no_cart
    (reqs : list (Method * Request)) (m : Method) (req : Request) :
  let carts := run reqs ∅ in
  userIdOf req ∈ objectPrototypeKeys →
  carts !! userIdOf req = None ∧
  (m = mGET → handle m req carts = (failure 500 "Failed to fetch cart items", carts)) ∧
  (status (handle m req carts).1 = 400 ∨ status (handle m req carts).1 = 500) ∧
  (handle m req carts).2 = carts.
Proof.
  intros carts Hkey.
  assert (Hinh : namesInherited carts (userIdOf req)).
  { unfold carts. clear carts.
    induction reqs as [|[m0 req0] reqs IH] using rev_ind.
    - split; [apply lookup_empty | done].
    - rewrite run_app. simpl. by apply handle_keeps_inherited. }
  pose proof Hinh as [Hnone _].
  pose proof (proj2 (slotOf_inherited _ _) Hinh) as Hslot.
  assert (Hbool : bool_decide (userIdOf req ∈ objectPrototypeKeys) = true)
    by (by apply bool_decide_eq_true).
  split_and!; [done| | |].
  - intros ->. unfold handle. by rewrite GET_eq, Hslot.
  - destruct m; unfold handle.
    + rewrite GET_eq, Hslot. by right.
    + rewrite POST_eq, Hslot. repeat case_match; simpl; auto.
    + rewrite PUT_eq, Hnone, Hbool. repeat case_match; simpl; auto.
    + rewrite DELETE_eq, Hnone, Hbool. repeat case_match; simpl; auto.
  - destruct m; unfold handle.
    + by rewrite GET_eq, Hslot.
    + by rewrite (proj2 (POST_inherited req carts Hinh)).
    + rewrite PUT_eq, Hnone, Hbool. by repeat case_match.
    + rewrite DELETE_eq, Hnone, Hbool. by repeat case_match.
Qed.

End Properties.

(** * The book catalogue *)

Lemma join_concat (sep : string) (xs : list string) :
  join sep xs = String.concat sep xs.
Proof.
  induction xs as [|x xs IH]; [done|].
  destruct xs as [|y xs]; [done|]. simpl in *. by rewrite IH.
Qed.

(** C3. [getAllBooks] returns one record per book of the dataset, in the
    same order and with the other fields as they were, whose [genre] is a
    single string: the elements of the original sequence in their order
    joined by a comma and a space, or the original string itself when the
    genre was a single string already. *)
Theorem getAllBooks_genre_is_joined_string
    {Fields : Type} (books : list (Book Fields)) (i : nat) (book : Book Fields) :
  books !! i = Some book →
  length (getAllBooks books) = length books ∧
  ∃ out s, getAllBooks books !! i = Some out ∧
    fields out = fields book ∧ genre out = GenreString s ∧
    match genre book with
    | GenreArray xs => s = String.concat ", " xs
    | GenreString s0 => s = s0
    end.
Proof.
  intros Hbook. unfold getAllBooks. split; [apply length_map|].
  exists (mkBook (fields book) (normalizeGenre (genre book))).
  exists (match genre book with
          | GenreArray xs => join ", " xs
          | GenreString s0 => s0
          end).
  split_and!.
  - change (map ?f books) with (f <$> books). by rewrite list_lookup_fmap, Hbook.
  - done.
  - by destruct (genre book).
  - destruct (genre book); [done | apply join_concat].
Qed.

Lemma getAllBooks_genre_is_joined_string_witness :
  ∃ out s,
    getAllBooks [mkBook 1%nat (GenreString "Poetry");
                 mkBook 2%nat (GenreArray ["Fiction"; "Drama"; "Classic"])] !! 1%nat
      = Some out ∧
    fields out = 2%nat ∧ genre out = GenreString s ∧
    s = "Fiction, Drama, Classic".
Proof.
  apply (getAllBooks_genre_is_joined_string
           [mkBook 1%nat (GenreString "Poetry");
            mkBook 2%nat (GenreArray ["Fiction"; "Drama"; "Classic"])]
           1%nat (mkBook 2%nat (GenreArray ["Fiction"; "Drama"; "Classic"]))).
  reflexivity.
Defined.

Lemma string_app_assoc (s1 s2 s3 : string) :
  (s1 +:+ s2) +:+ s3 = s1 +:+ (s2 +:+ s3).
Proof.
  induction s1 as [|a s1 IH]; [done|]. exact (f_equal (String a) IH).
Qed.

Lemma string_app_length (s1 s2 : string) :
  String.length (s1 +:+ s2) = (String.length s1 + String.length s2)%nat.
Proof.
  induction s1 as [|a s1 IH]; [done|]. exact (f_equal S IH).
Qed.

Lemma join_cons (sep x : string) (xs : list string) :
  xs ≠ [] → join sep (x :: xs) = x +:+ sep +:+ join sep xs.
Proof. by destruct xs. Qed.

Lemma join_app (sep : string) (xs ys : list string) :
  xs ≠ [] → ys ≠ [] →
  join sep (xs ++ ys) = join sep xs +:+ sep +:+ join sep ys.
Proof.
  intros Hxs Hys. induction xs as [|x xs IH]; [done|].
  destruct xs as [|x' xs].
  - by apply join_cons.
  - rewrite <- app_comm_cons, join_cons by done.
    rewrite IH by done. rewrite (join_cons sep x (x' :: xs)) by done.
    by rewrite !string_app_assoc.
Qed.

Lemma normalizeGenre_idemp (g : Genre) :
  normalizeGenre (normalizeGenre g) = normalizeGenre g.
Proof. by destruct g. Qed.

(** X20. [getAllBooks] keeps the books, their order and their other
    fields; every genre of its result is a single string; and normalizing a
    normalized list changes nothing. *)
Theorem getAllBooks_is_a_normalization {Fields : Type} (books : list (Book Fields)) :
  fields <$> getAllBooks books = fields <$> books ∧
  Forall (λ book, ∃ s, genre book = GenreString s) (getAllBooks books) ∧
  getAllBooks (getAllBooks books) = getAllBooks books.
Proof.
  unfold getAllBooks. induction books as [|book books (IH1 & IH2 & IH3)].
  - by split_and!.
  - simpl. split_and!.
    + f_equal. exact IH1.
    + constructor; [|exact IH2]. simpl. destruct (genre book); by eexists.
    + f_equal; [|exact IH3]. simpl. by rewrite normalizeGenre_idemp.
Qed.

(** X21. The string of a genre sequence.  An empty sequence gives the empty
    string and a sequence of one element gives that element, with no
    separator; the string of two non-empty sequences put one after the
    other is the string of the first, a comma and a space, and the string
    of the second; the length of the string is the sum of the lengths of
    the elements plus two for each element but the first. *)
Theorem genre_string_structure (xs ys : list string) (x : string) :
  normalizeGenre (GenreArray []) = GenreString "" ∧
  normalizeGenre (GenreArray [x]) = GenreString x ∧
  (xs ≠ [] → ys ≠ [] →
   normalizeGenre (GenreArray (xs ++ ys))
     = GenreString (join ", " xs +:+ ", " +:+ join ", " ys)) ∧
  String.length (join ", " xs)
    = (sum_list (String.length <$> xs) + 2 * (length xs - 1))%nat.
Proof.
  split_and!; [done..| |].
  - intros Hxs Hys. simpl. by rewrite join_app.
  - induction xs as [|x' xs IH]; [done|].
    destruct xs as [|x'' xs].
    + simpl. lia.
    + rewrite join_cons by done. rewrite !string_app_length, IH.
      simpl. lia.
Qed.

Lemma genre_string_structure_witness :
  normalizeGenre (GenreArray (["Fiction"; "Drama"] ++ ["Classic"]))
    = GenreString (join ", " ["Fiction"; "Drama"] +:+ ", " +:+ join ", " ["Classic"]).
Proof.
  by apply (genre_string_structure ["Fiction"; "Drama"] ["Classic"] "").
Defined.

(** * Scenarios

    The properties of the cart store at concrete requests, served with
    [scenarioZod]. *)

#[local] Existing Instance scenarioZod.

(** The user identifier of a scenario names no inherited property. *)
Ltac not_inherited :=
  let H := fresh in intros [_ H]; revert H; by apply (bool_decide_unpack _).

Lemma at_most_one_line_item_per_product_witness :
  NoDup (productId <$> [mkItem "b1" 3 10; mkItem "b2" 1 5]) ∧
  store_unique
    (handle mPUT (updateRequest (Some "u") "b1" 0)
       (run [(mPOST, addRequest (Some "u") "b1" 1 10);
             (mPOST, addRequest (Some "u") "b2" 1 5);
             (mPOST, addRequest (Some "u") "b1" 2 20)] ∅)).2.
Proof.
  destruct at_most_one_line_item_per_product as [Hrun Hstep]. split.
  - apply (Hrun [(mPOST, addRequest (Some "u") "b1" 1 10);
                 (mPOST, addRequest (Some "u") "b2" 1 5);
                 (mPOST, addRequest (Some "u") "b1" 2 20)] "u").
    vm_compute. reflexivity.
  - apply Hstep. intros u cart. apply Hrun.
Defined.

Lemma add_twice_fresh_product_witness :
  ((POST (addRequest (Some "u") "b1" 2 10) ∅).2 !! "u"
     = Some [mkItem "b1" 2 10]) ∧
  ((POST (addRequest (Some "u") "b1" 3 12)
      (POST (addRequest (Some "u") "b1" 2 10) ∅).2).2 !! "u"
     = Some [mkItem "b1" (2 + 3) 10]) ∧
  itemsOf "b1" [mkItem "b1" (2 + 3) 10] = [mkItem "b1" (2 + 3) 10].
Proof.
  refine (add_twice_fresh_product ∅
            (POST (addRequest (Some "u") "b1" 2 10) ∅).2
            (POST (addRequest (Some "u") "b1" 3 12)
               (POST (addRequest (Some "u") "b1" 2 10) ∅).2).2
            (addRequest (Some "u") "b1" 2 10) (addRequest (Some "u") "b1" 3 12)
            "Item added to cart successfully" "Item added to cart successfully"
            "b1" 2 10 3 12 eq_refl _ eq_refl eq_refl).
  vm_compute. by intros ?%elem_of_nil.
Defined.

(** C1, as stated, fails where the cart already holds the product: after
    an earlier add of "b1" with quantity 5 at price 7, two further
    successful adds with quantities 1 and 2 at prices 10 and 20 leave one
    line item of quantity 8 at price 7, not quantity 3 at price 10.  It
    also fails where the sum of the quantities is not a double: adds of
    9007199254740991 and of 2 leave the quantity 9007199254740992. *)
Lemma add_twice_existing_product_counterexample :
  (POST (addRequest (Some "u") "b1" 1 10) oneItemStore).1
    = ok (ItemAdded "Item added to cart successfully" (mkItem "b1" 1 10)) ∧
  (POST (addRequest (Some "u") "b1" 2 20)
     (POST (addRequest (Some "u") "b1" 1 10) oneItemStore).2).1
    = ok (ItemAdded "Item added to cart successfully" (mkItem "b1" 2 20)) ∧
  (POST (addRequest (Some "u") "b1" 2 20)
     (POST (addRequest (Some "u") "b1" 1 10) oneItemStore).2).2 !! "u"
    = Some [mkItem "b1" 8 7] ∧
  ¬ (∃ cart item,
       (POST (addRequest (Some "u") "b1" 2 20)
          (POST (addRequest (Some "u") "b1" 1 10) oneItemStore).2).2 !! "u"
         = Some cart ∧
       itemsOf "b1" cart = [item] ∧
       (quantity item =? 1 + 2)%float = true ∧ (price item =? 10)%float = true) ∧
  (∃ q,
     run [(mPOST, addRequest (Some "v") "b2" 9007199254740991 1);
          (mPOST, addRequest (Some "v") "b2" 2 1)] ∅ !! "v"
       = Some [mkItem "b2" q 1] ∧
     valueOf q = Some (inject_Z 9007199254740992) ∧
     (9007199254740992 ≠ 9007199254740991 + 2)%Z).
Proof.
  split_and!; [reflexivity..| |].
  - intros (cart & item & Hcart & Hitems & Hq & _).
    vm_compute in Hcart. injection Hcart as <-.
    vm_compute in Hitems. injection Hitems as <-.
    vm_compute in Hq. discriminate Hq.
  - eexists. split_and!; [reflexivity|reflexivity|]. by vm_compute.
Qed.

Lemma update_removes_or_sets_quantity_witness :
  ∃ l1 item l2,
    [mkItem "b1" 2 10; mkItem "b2" 1 5] = l1 ++ item :: l2 ∧
    productId item = "b2" ∧
    status (PUT (updateRequest (Some "u") "b2" 4) twoItemStore).1 = 200 ∧
    (PUT (updateRequest (Some "u") "b2" 4) twoItemStore).2
      = <["u" := l1 ++ mkItem "b2" 4 (price item) :: l2]> twoItemStore.
Proof.
  destruct (update_removes_or_sets_quantity
              [(mPOST, addRequest (Some "u") "b1" 2 10);
               (mPOST, addRequest (Some "u") "b2" 1 5)]
              (updateRequest (Some "u") "b2" 4) (updateBody "b2" 4) "b2" 4
              [mkItem "b1" 2 10; mkItem "b2" 1 5])
    as (l1 & item & l2 & Hsplit & Hp & Hok & _ & Hset).
  - reflexivity.
  - by apply (bool_decide_unpack _).
  - reflexivity.
  - reflexivity.
  - exists l1, item, l2. split_and!; [done..|]. by apply Hset.
Defined.

Lemma not_found_unless_userId_is_inherited_witness :
  PUT (updateRequest (Some "constructor") "b1" 1) ∅
    = (failure 500 "Failed to update cart item", ∅) ∧
  DELETE (removeRequest (Some "constructor") "b1") ∅
    = (failure 500 "Failed to remove item from cart", ∅) ∧
  (status (PUT (updateRequest (Some "u") "b1" 3) ∅).1 = 404 ∧
   (PUT (updateRequest (Some "u") "b1" 3) ∅).2 = ∅).
Proof.
  assert (Hinh : namesInherited (∅ : store) "constructor").
  { split; [reflexivity|]. by apply (bool_decide_unpack _). }
  split; [|split].
  - destruct (not_found_unless_userId_is_inherited ∅
                (updateRequest (Some "constructor") "b1" 1)) as [HPUT _].
    destruct (HPUT (updateBody "b1" 1) "b1" 1%float eq_refl eq_refl) as (_ & H500 & _).
    by apply H500.
  - destruct (not_found_unless_userId_is_inherited ∅
                (removeRequest (Some "constructor") "b1")) as [_ HDEL].
    destruct (HDEL "b1" eq_refl) as (_ & H500 & _).
    by apply H500.
  - destruct (not_found_unless_userId_is_inherited ∅
                (updateRequest (Some "u") "b1" 3)) as [HPUT _].
    destruct (HPUT (updateBody "b1" 3) "b1" 3%float eq_refl eq_refl)
      as (Hiff & _ & Hsame).
    assert (H404 : status (PUT (updateRequest (Some "u") "b1" 3) ∅).1 = 404).
    { apply Hiff. split; [left; reflexivity | not_inherited]. }
    split; [exact H404 | exact (Hsame H404)].
Defined.

Lemma list_returns_items_and_totals_witness :
  body (GET (listRequest (Some "u"))
          {["u" := [mkItem "b1" 2 10; mkItem "b2" 1 5]]}).1
    = CartListing [mkItem "b1" 2 10; mkItem "b2" 1 5] 2 25 ∧
  body (GET (listRequest (Some "v"))
          {["u" := [mkItem "b1" 2 10; mkItem "b2" 1 5]]}).1
    = CartListing [] 0 0.
Proof.
  split.
  - apply (list_returns_items_and_totals
             {["u" := [mkItem "b1" 2 10; mkItem "b2" 1 5]]}
             (listRequest (Some "u"))).
    + not_inherited.
    + reflexivity.
  - apply (list_returns_items_and_totals
             {["u" := [mkItem "b1" 2 10; mkItem "b2" 1 5]]}
             (listRequest (Some "v"))).
    + not_inherited.
    + reflexivity.
Defined.

(** C6, as stated, fails in two ways.  The total is a sum of doubles: for
    one line item of quantity 3 at the price [oneTenth] it is the double
    0.30000000000000004, whose value is not three times the value of the
    price.  And a listing for the user identifier "constructor" is answered
    500. *)
Lemma list_total_is_rounded_counterexample :
  (∃ total v pr,
     body (GET (listRequest (Some "u"))
             (run [(mPOST, addRequest (Some "u") "b1" 3 oneTenth)] ∅)).1
       = CartListing [mkItem "b1" 3 oneTenth] 1 total ∧
     valueOf total = Some v ∧ valueOf oneTenth = Some pr ∧
     ¬ (v == pr * 3)%Q) ∧
  GET (listRequest (Some "constructor")) ∅
    = (failure 500 "Failed to fetch cart items", ∅).
Proof.
  split; [|reflexivity].
  eexists _, _, _. split_and!; [reflexivity..|].
  apply Qeq_bool_neq. vm_compute. reflexivity.
Qed.

Lemma invalid_input_rejected_witness :
  POST (mkRequest None None (Some (JObject [("productId", JString "")])))
       {["u" := [mkItem "b1" 2 10]]}
    = (failure 400 "Invalid input", {["u" := [mkItem "b1" 2 10]]}) ∧
  PUT (updateRequest (Some "u") "b1" 0.5) {["u" := [mkItem "b1" 2 10]]}
    = (failure 400 "Invalid input", {["u" := [mkItem "b1" 2 10]]}).
Proof.
  destruct (invalid_input_rejected {["u" := [mkItem "b1" 2 10]]})
    as (HPOST & HPUT & _ & _).
  split.
  - apply (HPOST (mkRequest None None (Some (JObject [("productId", JString "")])))
                 (JObject [("productId", JString "")]) eq_refl).
    left. by intros (s & [= <-] & Hs).
  - apply (HPUT (updateRequest (Some "u") "b1" 0.5)
                (updateBody "b1" 0.5) eq_refl).
    right. intros (n & _ & x & q & [= <-] & Hq & Hx).
    change (valueOf 0.5) with (Some (Qmake 4503599627370496 9007199254740992)) in Hq.
    injection Hq as <-. unfold Qeq in Hx. cbn [Qnum Qden inject_Z] in Hx. lia.
Defined.

Lemma absent_userId_is_default_user_witness :
  userIdOf (addRequest None "b1" 2 10) = "default-user" ∧
  handle mPOST (addRequest None "b1" 2 10) ∅
    = handle mPOST (addRequest (Some "default-user") "b1" 2 10) ∅.
Proof. by apply (absent_userId_is_default_user mPOST (addRequest None "b1" 2 10) ∅). Defined.

Lemma other_carts_untouched_witness :
  (handle mDELETE (removeRequest (Some "u") "b1")
     {["u" := [mkItem "b1" 2 10]; "v" := [mkItem "b1" 1 10]]}).2 !! "v"
    = Some [mkItem "b1" 1 10].
Proof.
  rewrite (other_carts_untouched mDELETE (removeRequest (Some "u") "b1") _ "v").
  - reflexivity.
  - discriminate.
Defined.

Lemma list_leaves_store_unchanged_witness :
  (GET (listRequest (Some "u")) ∅).2 !! userIdOf (listRequest (Some "u")) = None.
Proof. by apply (list_leaves_store_unchanged (listRequest (Some "u")) ∅). Defined.

Lemma remove_rejected_iff_itemId_missing_witness :
  DELETE (mkRequest (Some "u") (Some "") None) twoItemStore
    = (failure 400 "Invalid input", twoItemStore).
Proof.
  destruct (remove_rejected_iff_itemId_missing
              (mkRequest (Some "u") (Some "") None) twoItemStore) as [Hiff Hsame].
  apply Hsame, Hiff. by right.
Defined.

Lemma failed_request_leaves_store_witness :
  (handle mPUT (updateRequest (Some "u") "b7" 3) twoItemStore).2 = twoItemStore.
Proof.
  apply (failed_request_leaves_store mPUT (updateRequest (Some "u") "b7" 3)).
  vm_compute. discriminate.
Defined.

Lemma status_profile_witness :
  status (handle mPOST (addRequest None "b1" 0 1) ∅).1 ≠ 404 ∧
  (namesInherited (∅ : store) "toString" ∨
   ((mGET = mPOST ∨ mGET = mPUT) ∧ req_json (listRequest (Some "toString")) = None)).
Proof.
  split.
  - by apply (status_profile mPOST (addRequest None "b1" 0 1) ∅).
  - by apply (status_profile mGET (listRequest (Some "toString")) ∅).
Defined.

Lemma add_accepted_iff_valid_witness :
  status (POST (addRequest (Some "u") "b1" 2 2.5) ∅).1 = 200.
Proof.
  apply (add_accepted_iff_valid (addRequest (Some "u") "b1" 2 2.5) ∅
           (addBody "b1" 2 2.5) eq_refl).
  - not_inherited.
  - split_and!.
    + exists "b1". by split.
    + exists 2%Z. split; [by vm_compute|]. eexists _, _.
      split_and!; [reflexivity..|]. by vm_compute.
    + eexists _, _. split_and!; [reflexivity..|]. by vm_compute.
Defined.

Lemma stored_items_are_valid_witness :
  productId (mkItem "b2" 1 5) ≠ "" ∧
  (price (mkItem "b2" 1 5) = infinity ∨
   ∃ v, valueOf (price (mkItem "b2" 1 5)) = Some v ∧ (0 <= v)%Q).
Proof.
  destruct stored_items_are_valid as [Hrun _].
  apply (Hrun [(mPOST, addRequest (Some "u") "b1" 2 10);
               (mPOST, addRequest (Some "u") "b2" 1 5)]
              "u" [mkItem "b1" 2 10; mkItem "b2" 1 5]).
  - reflexivity.
  - rewrite !elem_of_cons. auto.
Defined.

Lemma prices_and_order_are_kept_witness :
  priced [mkItem "b1" 2 10; mkItem "b2" 4 5] = priced [mkItem "b1" 2 10; mkItem "b2" 1 5] ∨
  (∃ l1 x l2, priced [mkItem "b1" 2 10; mkItem "b2" 1 5] = l1 ++ x :: l2 ∧
              priced [mkItem "b1" 2 10; mkItem "b2" 4 5] = l1 ++ l2) ∨
  (∃ new, (productId new ∉ productId <$> [mkItem "b1" 2 10; mkItem "b2" 1 5]) ∧
          priced [mkItem "b1" 2 10; mkItem "b2" 4 5]
            = priced [mkItem "b1" 2 10; mkItem "b2" 1 5] ++ [(productId new, price new)]).
Proof.
  exact (prices_and_order_are_kept mPUT (updateRequest (Some "u") "b2" 4)
           twoItemStore [mkItem "b1" 2 10; mkItem "b2" 4 5] eq_refl).
Defined.

Lemma carts_are_never_destroyed_witness :
  is_Some (run [(mDELETE, removeRequest (Some "u") "b1")] oneItemStore !! "u").
Proof.
  apply (carts_are_never_destroyed [(mDELETE, removeRequest (Some "u") "b1")]
           oneItemStore "u").
  by eexists.
Defined.

Lemma remove_takes_line_item_out_witness :
  ∃ l1 item l2,
    [mkItem "b1" 2 10; mkItem "b2" 1 5] = l1 ++ item :: l2 ∧
    productId item = "b1" ∧
    DELETE (removeRequest (Some "u") "b1") twoItemStore =
      (ok (ItemRemoved "Item removed from cart successfully" "b1"),
       <["u" := l1 ++ l2]> twoItemStore).
Proof.
  destruct (remove_takes_line_item_out
              [(mPOST, addRequest (Some "u") "b1" 2 10);
               (mPOST, addRequest (Some "u") "b2" 1 5)]
              (removeRequest (Some "u") "b1") "b1"
              [mkItem "b1" 2 10; mkItem "b2" 1 5])
    as (l1 & item & l2 & Hsplit & Hp & HDEL & _).
  - reflexivity.
  - by apply (bool_decide_unpack _).
  - reflexivity.
  - by exists l1, item, l2.
Defined.

Lemma update_to_zero_is_remove_witness :
  (PUT (updateRequest (Some "u") "b1" 0) twoItemStore).2
    = (DELETE (removeRequest (Some "u") "b1") twoItemStore).2 ∧
  status (PUT (updateRequest (Some "u") "b1" 0) twoItemStore).1
    = status (DELETE (removeRequest (Some "u") "b1") twoItemStore).1.
Proof.
  by apply (update_to_zero_is_remove twoItemStore
              (updateRequest (Some "u") "b1" 0) (removeRequest (Some "u") "b1")
              (updateBody "b1" 0) "b1" 0%float).
Defined.

Lemma add_then_remove_restores_cart_witness :
  (DELETE (removeRequest (Some "u") "b3")
     (POST (addRequest (Some "u") "b3" 1 4) twoItemStore).2).2 = twoItemStore.
Proof.
  apply (add_then_remove_restores_cart twoItemStore
           (addRequest (Some "u") "b3" 1 4) (removeRequest (Some "u") "b3")
           (addBody "b3" 1 4) (mkItem "b3" 1 4)).
  - reflexivity.
  - not_inherited.
  - reflexivity.
  - reflexivity.
  - by apply (bool_decide_unpack _).
  - reflexivity.
  - by eexists.
Defined.

Lemma second_update_overrides_first_witness :
  PUT (updateRequest (Some "u") "b1" 7)
      (PUT (updateRequest (Some "u") "b1" 3) twoItemStore).2
    = PUT (updateRequest (Some "u") "b1" 7) twoItemStore.
Proof.
  apply (second_update_overrides_first twoItemStore
           (updateRequest (Some "u") "b1" 3) (updateRequest (Some "u") "b1" 7)
           (updateBody "b1" 3) (updateBody "b1" 7) "b1" 3%float 7%float);
    reflexivity.
Defined.

Lemma add_raises_totals_witness :
  ∃ cart',
    body (GET (listRequest (Some "u"))
            (POST (addRequest (Some "u") "b2" 3 99) twoItemStore).2).1
      = CartListing cart' (length cart') (totalPriceOf cart') ∧
    length cart' = 2%nat ∧
    cart' = [mkItem "b1" 2 10] ++ mkItem "b2" (1 + 3) 5 :: [].
Proof.
  destruct (add_raises_totals twoItemStore
              (addRequest (Some "u") "b2" 3 99) (listRequest (Some "u"))
              (addBody "b2" 3 99) (mkItem "b2" 3 99) eq_refl)
    as (cart' & HGET & _ & Hpresent).
  - not_inherited.
  - reflexivity.
  - reflexivity.
  - exists cart'. split; [exact HGET|].
    apply (Hpresent [mkItem "b1" 2 10] (mkItem "b2" 1 5) []); [reflexivity..|].
    by apply (bool_decide_unpack _).
Defined.

Lemma repeated_adds_accumulate_witness :
  run [(mPOST, addRequest None "b1" 2 10);
       (mPOST, addRequest None "b1" 3 12);
       (mPOST, addRequest None "b1" 4 15)] ∅ !! "default-user"
    = Some [mkItem "b1" (2 + 3 + 4) 10].
Proof.
  assert (H1 : ¬ namesInherited (∅ : store) (userIdOf (addRequest None "b1" 2 10)))
    by not_inherited.
  assert (H2 : "b1" ∉ productId <$>
                 default [] ((∅ : store) !! userIdOf (addRequest None "b1" 2 10)))
    by (by apply (bool_decide_unpack _)).
  assert (H3 : Forall (λ a : number * number,
                         is_Some (CartItemSchema (addBody "b1" a.1 a.2)))
                      [(2, 10); (3, 12); (4, 15)]%float)
    by (repeat constructor; by eexists).
  exact (repeated_adds_accumulate ∅ None "b1" 2 10 [(3, 12); (4, 15)]%float H1 H2 H3).
Defined.

Lemma requests_of_different_users_commute_witness :
  (handle mDELETE (removeRequest (Some "u") "b1")
     (handle mPOST (addRequest (Some "v") "b1" 1 3) twoItemStore).2).2
    = (handle mPOST (addRequest (Some "v") "b1" 1 3)
         (handle mDELETE (removeRequest (Some "u") "b1") twoItemStore).2).2.
Proof.
  apply (requests_of_different_users_commute mPOST mDELETE
           (addRequest (Some "v") "b1" 1 3) (removeRequest (Some "u") "b1")
           twoItemStore).
  discriminate.
Defined.

Lemma only_successful_mutations_matter_witness :
  run ([(mPOST, addRequest (Some "u") "b1" 2 10)]
         ++ (mPUT, updateRequest (Some "u") "b9" 1)
         :: [(mPOST, addRequest (Some "u") "b2" 1 5)]) ∅
    = run ([(mPOST, addRequest (Some "u") "b1" 2 10)]
             ++ [(mPOST, addRequest (Some "u") "b2" 1 5)]) ∅.
Proof.
  apply (only_successful_mutations_matter
           [(mPOST, addRequest (Some "u") "b1" 2 10)]
           [(mPOST, addRequest (Some "u") "b2" 1 5)]
           mPUT (updateRequest (Some "u") "b9" 1) ∅).
  vm_compute. discriminate.
Defined.

Lemma empty_userId_is_default_user_witness :
  userIdOf (addRequest (Some "") "b1" 1 1) = "default-user" ∧
  handle mPOST (addRequest (Some "") "b1" 1 1) ∅
    = handle mPOST (withUserId None (addRequest (Some "") "b1" 1 1)) ∅.
Proof.
  by apply (empty_userId_is_default_user mPOST (addRequest (Some "") "b1" 1 1) ∅).
Defined.

Lemma not_found_messages_witness :
  body (DELETE (removeRequest (Some "u") "b1")
          (DELETE (removeRequest (Some "u") "b1") oneItemStore).2).1
    = ErrorBody "Item not found in cart" ∧
  body (PUT (updateRequest (Some "w") "b1" 1) oneItemStore).1
    = ErrorBody "Cart not found".
Proof.
  split.
  - destruct (not_found_messages (DELETE (removeRequest (Some "u") "b1") oneItemStore).2
                (removeRequest (Some "u") "b1")) as [_ HDEL].
    apply (HDEL "b1" eq_refl). exists []. split; [reflexivity|].
    by apply (bool_decide_unpack _).
  - destruct (not_found_messages oneItemStore (updateRequest (Some "w") "b1" 1))
      as [HPUT _].
    apply (HPUT (updateBody "b1" 1) "b1" 1%float eq_refl eq_refl).
    split; [reflexivity|]. by apply (bool_decide_unpack _).
Defined.

Lemma non_object_body_rejected_witness :
  POST (mkRequest None None (Some (JArray [addBody "b1" 1 1]))) twoItemStore
    = (failure 400 "Invalid input", twoItemStore) ∧
  PUT (mkRequest None None (Some (JArray [addBody "b1" 1 1]))) twoItemStore
    = (failure 400 "Invalid input", twoItemStore).
Proof.
  by apply (non_object_body_rejected
              (mkRequest None None (Some (JArray [addBody "b1" 1 1])))
              twoItemStore (JArray [addBody "b1" 1 1])).
Defined.

Lemma remove_then_add_starts_afresh_witness :
  ∃ l1 old l2,
    [mkItem "b1" 2 10; mkItem "b2" 1 5] = l1 ++ old :: l2 ∧
    productId old = "b1" ∧
    (POST (addRequest (Some "u") "b1" 7 3)
       (DELETE (removeRequest (Some "u") "b1") twoItemStore).2).2
      = <["u" := (l1 ++ l2) ++ [mkItem "b1" 7 3]]> twoItemStore.
Proof.
  assert (Hin : "b1" ∈ productId <$> [mkItem "b1" 2 10; mkItem "b2" 1 5])
    by (by apply (bool_decide_unpack _)).
  exact (remove_then_add_starts_afresh
           [(mPOST, addRequest (Some "u") "b1" 2 10);
            (mPOST, addRequest (Some "u") "b2" 1 5)]
           (removeRequest (Some "u") "b1") (addRequest (Some "u") "b1" 7 3)
           (addBody "b1" 7 3) (mkItem "b1" 7 3)
           [mkItem "b1" 2 10; mkItem "b2" 1 5]
           eq_refl eq_refl Hin eq_refl eq_refl eq_refl).
Defined.

Lemma inherited_names_hold_no_cart_witness :
  run [(mPOST, addRequest (Some "__proto__") "b1" 1 1)] ∅ !! "__proto__" = None ∧
  handle mGET (listRequest (Some "__proto__"))
      (run [(mPOST, addRequest (Some "__proto__") "b1" 1 1)] ∅)
    = (failure 500 "Failed to fetch cart items",
       run [(mPOST, addRequest (Some "__proto__") "b1" 1 1)] ∅).
Proof.
  assert (Hkey : userIdOf (listRequest (Some "__proto__")) ∈ objectPrototypeKeys)
    by (by apply (bool_decide_unpack _)).
  destruct (inherited_names_hold_no_cart
              [(mPOST, addRequest (Some "__proto__") "b1" 1 1)]
              mGET (listRequest (Some "__proto__")) Hkey) as (Hnone & HGET & _).
  split; [exact Hnone | by apply HGET].
Defined.
